(** * Brambl-JS: the Loki-layer request module ([src/Requests.js])

    A shallow embedding of [LokiRequest], the [Requests] constructor with its
    two setters, and the operations attached to [Requests.prototype],
    followed by the properties of the request
    dispatch, the parameter validation and the client configuration. *)

From Stdlib Require Import String Ascii List ZArith Bool Lia.
From Stdlib Require Import DecimalString.
Import ListNotations.
Open Scope list_scope.
Open Scope string_scope.

Set Warnings "-register-all".

(** ** JavaScript values

    The values that flow through the module: parameter objects given by the
    caller, JSON bodies parsed from the node's answers, and the client's
    [url] and header values.  Numbers are the integer-valued ones ([JNum],
    in the range JavaScript prints in plain decimal) and [NaN]; an object
    is the list of its own enumerable properties in property order (keys
    pairwise distinct in every object JavaScript can build; look-up takes
    the first binding). *)

Inductive JsVal : Type :=
| JUndefined
| JNull
| JBool (b : bool)
| JNum (n : Z)
| JNaN
| JStr (s : string)
| JArr (elems : list JsVal)
| JObj (props : list (string * JsVal)).

(** ToBoolean: [undefined], [null], [false], [0], [NaN] and the empty string
    are falsy, everything else (every array and object included) is truthy. *)
Definition truthy (v : JsVal) : bool :=
  match v with
  | JUndefined | JNull | JNaN => false
  | JBool b => b
  | JNum n => negb (n =? 0)%Z
  | JStr s => negb (s =? EmptyString)
  | JArr _ | JObj _ => true
  end.

(** [a || b] on values. *)
Definition js_or (a b : JsVal) : JsVal := if truthy a then a else b.

(** [v !== 0], as used by the fee checks. *)
Definition not_strict_zero (v : JsVal) : bool :=
  match v with
  | JNum n => negb (n =? 0)%Z
  | _ => true
  end.

(** [Array.isArray(v)]. *)
Definition Array_isArray (v : JsVal) : bool :=
  match v with
  | JArr _ => true
  | _ => false
  end.

(** A default parameter value ([id = "1"], [url = "http://..."]) replaces
    the argument exactly when the argument is [undefined]. *)
Definition default_arg (arg dflt : JsVal) : JsVal :=
  match arg with
  | JUndefined => dflt
  | _ => arg
  end.

(** Own-property look-up in a property list. *)
Fixpoint lookup (k : string) (props : list (string * JsVal)) : option JsVal :=
  match props with
  | [] => None
  | (k', v) :: rest => if k' =? k then Some v else lookup k rest
  end.

(** The value read by [obj.k] on an object with these properties. *)
Definition prop (k : string) (props : list (string * JsVal)) : JsVal :=
  match lookup k props with
  | Some v => v
  | None => JUndefined
  end.

Definition has_field (k : string) (v : JsVal) : bool :=
  match v with
  | JObj props => match lookup k props with Some _ => true | None => false end
  | _ => false
  end.

(** [obj[k] = v] on a property list: an existing property keeps its place,
    a new one is appended. *)
Fixpoint set_prop (k : string) (v : JsVal) (props : list (string * JsVal))
  : list (string * JsVal) :=
  match props with
  | [] => [(k, v)]
  | (k', v') :: rest =>
      if k' =? k then (k', v) :: rest else (k', v') :: set_prop k v rest
  end.

(** Decimal digits of a canonical array index, if [k] is one. *)
Definition string_of_nat (n : nat) : string :=
  NilZero.string_of_uint (Nat.to_uint n).

(** The text of an integer-valued number in plain decimal, as JavaScript
    prints it below 1e21 in magnitude (the range of [JNum]). *)
Definition string_of_Z (n : Z) : string :=
  NilZero.string_of_int (Z.to_int n).

Fixpoint index_named (k : string) (i : nat) (bound : nat) : option nat :=
  match bound with
  | O => None
  | S bound' => if string_of_nat i =? k then Some i else index_named k (S i) bound'
  end.

(** What went wrong, for a call that does not resolve. *)
Inductive Exn : Type :=
| Error (message : string)                     (* [throw new Error(message)] *)
| TypeError_read (base : JsVal) (key : string) (* property read on null/undefined *)
| ReferenceError (name : string)               (* [name] is not defined *)
| Thrown (v : JsVal)                           (* [throw v] of a plain value *)
| TransportError (detail : string).            (* [fetch] or [.json()] rejected *)

(** [base.key] (member access).  Reading a property of [undefined] or [null]
    throws; strings and arrays expose [length] and their indices; numbers
    and booleans have no own properties.  Members inherited from the
    built-in prototypes (methods) are not values of this model: none of the
    names the module reads is one. *)
Definition js_get (base : JsVal) (key : string) : Exn + JsVal :=
  match base with
  | JUndefined | JNull => inl (TypeError_read base key)
  | JObj props => inr (prop key props)
  | JArr elems =>
      inr (if key =? "length" then JNum (Z.of_nat (length elems))
           else match index_named key 0 (length elems) with
                | Some i => nth i elems JUndefined
                | None => JUndefined
                end)
  | JStr s =>
      inr (if key =? "length" then JNum (Z.of_nat (String.length s))
           else match index_named key 0 (String.length s) with
                | Some i => JStr (substring i 1 s)
                | None => JUndefined
                end)
  | JBool _ | JNum _ | JNaN => inr JUndefined
  end.

(** The properties copied by the spread [{ ...v }]: the own enumerable
    properties of an object, the indexed elements of an array or string,
    nothing for the other values. *)
Fixpoint indexed (i : nat) (elems : list JsVal) : list (string * JsVal) :=
  match elems with
  | [] => []
  | e :: rest => (string_of_nat i, e) :: indexed (S i) rest
  end.

Fixpoint chars (s : string) : list JsVal :=
  match s with
  | EmptyString => []
  | String c rest => JStr (String c EmptyString) :: chars rest
  end.

Definition spread (v : JsVal) : list (string * JsVal) :=
  match v with
  | JObj props => props
  | JArr elems => indexed 0 elems
  | JStr s => indexed 0 (chars s)
  | _ => []
  end.

(** ** Strings: ToString and JSON.stringify *)

Definition dquote : string := String "034"%char EmptyString.
Definition backslash : string := String "092"%char EmptyString.

Fixpoint join (sep : string) (parts : list string) : string :=
  match parts with
  | [] => EmptyString
  | [p] => p
  | p :: rest => p ++ sep ++ join sep rest
  end.

(** ToString, as applied by [+] with a string operand. *)
Fixpoint to_string (v : JsVal) : string :=
  match v with
  | JUndefined => "undefined"
  | JNull => "null"
  | JBool true => "true"
  | JBool false => "false"
  | JNum n => string_of_Z n
  | JNaN => "NaN"
  | JStr s => s
  | JArr elems =>
      join "," (map (fun e => match e with
                              | JUndefined | JNull => EmptyString
                              | _ => to_string e
                              end) elems)
  | JObj _ => "[object Object]"
  end.

(** [v + s] for a string [s]: string concatenation after ToString. *)
Definition js_plus (v : JsVal) (s : string) : string := to_string v ++ s.

Definition hex_digit (n : nat) : string :=
  String (nth n (list_ascii_of_string "0123456789abcdef") "0"%char) EmptyString.

(** QuoteJSONString, one character at a time. *)
Definition quote_char (c : ascii) : string :=
  let n := nat_of_ascii c in
  if (n =? 34)%nat then backslash ++ dquote
  else if (n =? 92)%nat then backslash ++ backslash
  else if (n =? 8)%nat then backslash ++ "b"
  else if (n =? 9)%nat then backslash ++ "t"
  else if (n =? 10)%nat then backslash ++ "n"
  else if (n =? 12)%nat then backslash ++ "f"
  else if (n =? 13)%nat then backslash ++ "r"
  else if (n <? 32)%nat then backslash ++ "u00" ++ hex_digit (n / 16) ++ hex_digit (n mod 16)
  else String c EmptyString.

Fixpoint quote_chars (s : string) : string :=
  match s with
  | EmptyString => EmptyString
  | String c rest => quote_char c ++ quote_chars rest
  end.

Definition quote (s : string) : string := dquote ++ quote_chars s ++ dquote.

(** SerializeJSONProperty without indentation.  [undefined] has no JSON
    text: an array element prints as [null], an object property is left
    out. *)
Fixpoint serialize (v : JsVal) : string :=
  match v with
  | JUndefined => "null"
  | JNull => "null"
  | JBool true => "true"
  | JBool false => "false"
  | JNum n => string_of_Z n
  | JNaN => "null"
  | JStr s => quote s
  | JArr elems => "[" ++ join "," (map serialize elems) ++ "]"
  | JObj props =>
      "{" ++ join ","
               ((fix members (ps : list (string * JsVal)) : list string :=
                   match ps with
                   | [] => []
                   | (_, JUndefined) :: rest => members rest
                   | (k, x) :: rest => (quote k ++ ":" ++ serialize x) :: members rest
                   end) props)
          ++ "}"
  end.

(** [JSON.stringify(v)] for a value that has a JSON text. *)
Definition JSON_stringify (v : JsVal) : string := serialize v.

(** ** The client object, the network and the global scope

    [Requests] is the object built by the constructor: [this.url] and
    [this.headers].  The setters assign to it in place, so it lives in the
    state that every call threads; the state also records each [fetch] call
    in order, and holds the bindings of the global object, where an
    identifier that no enclosing scope declares is looked up. *)

Record Requests : Type := mkRequests {
  url : JsVal;
  headers : list (string * JsVal)
}.

(** The [payload] object handed to [fetch]. *)
Record Payload : Type := mkPayload {
  payload_url : string;
  payload_method : string;
  payload_headers : list (string * JsVal);
  payload_body : string
}.

(** One [fetch(target, payload)] call. *)
Record FetchCall : Type := mkFetchCall {
  target : string;
  payload : Payload
}.

Record World : Type := mkWorld {
  this : Requests;
  globals : list (string * JsVal);
  network : list FetchCall
}.

(** An [async] computation: it runs on a state and either rejects with an
    exception or resolves with a value. *)
Definition Async (A : Type) : Type := World -> World * (Exn + A).

Definition ret {A} (a : A) : Async A := fun w => (w, inr a).

Definition throw {A} (e : Exn) : Async A := fun w => (w, inl e).

Definition bind {A B} (m : Async A) (f : A -> Async B) : Async B :=
  fun w =>
    match m w with
    | (w', inl e) => (w', inl e)
    | (w', inr a) => f a w'
    end.

(** [try { m } catch (err) { handler err }]. *)
Definition try_catch {A} (m : Async A) (handler : Exn -> Async A) : Async A :=
  fun w =>
    match m w with
    | (w', inl e) => handler e w'
    | (w', inr a) => (w', inr a)
    end.

(** Lift a step that may throw but touches no state. *)
Definition lift {A} (r : Exn + A) : Async A := fun w => (w, r).

(** [if (cond) throw e]. *)
Definition throw_if (cond : bool) (e : Exn) : Async unit :=
  if cond then throw e else ret tt.

Definition read_this : Async Requests := fun w => (w, inr (this w)).

Definition write_this (r : Requests) : Async unit :=
  fun w => (mkWorld r (globals w) (network w), inr tt).

(** Resolution of an identifier that the function itself does not declare
    and the module scope does not bind (the module binds [fetch],
    [pollingConfirm], [LokiRequest], [Requests] and the CommonJS wrapper's
    parameters): a property of the global object, or a ReferenceError. *)
Definition resolve_free (name : string) : Async JsVal :=
  fun w =>
    match lookup name (globals w) with
    | Some v => (w, inr v)
    | None => (w, inl (ReferenceError name))
    end.

Declare Scope async_scope.
Delimit Scope async_scope with async.
Notation "x <- m ;; k" := (bind m (fun x => k))
  (at level 61, m at next level, right associativity) : async_scope.
Notation "m ;; k" := (bind m (fun _ => k))
  (at level 61, right associativity) : async_scope.
Open Scope async_scope.

Record RouteInfo : Type := mkRouteInfo {
  route : string;
  method : string;
  id : JsVal
}.

(** The [body] constant of [LokiRequest]. *)
Definition envelope (routeInfo : RouteInfo) (params : JsVal) : JsVal :=
  JObj [("jsonrpc", JStr "2.0");
        ("id", js_or (id routeInfo) (JStr "1"));
        ("method", JStr (method routeInfo));
        ("params", JArr [JObj (spread params)])].

Section Node.

(** The remote end: what [(await fetch(target, payload)).json()] yields
    for a given call, a rejection or the parsed body. *)
Variable node : FetchCall -> Exn + JsVal.

(** [await (await fetch(target, payload)).json()]. *)
Definition fetch_json (tgt : string) (pl : Payload) : Async JsVal :=
  fun w =>
    let call := mkFetchCall tgt pl in
    (mkWorld (this w) (globals w) (network w ++ [call])%list, node call).

(** [LokiRequest(routeInfo, params, self)]; [self] is the client object
    of the state. *)
Definition LokiRequest (routeInfo : RouteInfo) (params : JsVal) : Async JsVal :=
  try_catch
    (self <- read_this ;;
     let route := route routeInfo in
     let body := envelope routeInfo params in
     let payload :=
       mkPayload (js_plus (url self) route) "POST" (headers self)
                 (JSON_stringify body) in
     response <- fetch_json (js_plus (url self) route) payload ;;
     error <- lift (js_get response "error") ;;
     if truthy error then throw (Thrown response) else ret response)
    (fun err => throw err).

End Node.

(** ** The constructor and the setters *)

Definition new_Requests (url_arg apiKey_arg : JsVal) : Requests :=
  let url := default_arg url_arg (JStr "http://localhost:9085/") in
  let apiKey := default_arg apiKey_arg (JStr "topl_the_world!") in
  mkRequests url [("Content-Type", JStr "application/json"); ("x-api-key", apiKey)].

Definition setUrl (url : JsVal) : Async unit :=
  self <- read_this ;;
  write_this (mkRequests url (headers self)).

Definition setApiKey (apiKey : JsVal) : Async unit :=
  self <- read_this ;;
  write_this (mkRequests (url self) (set_prop "x-api-key" apiKey (headers self))).

(** ** The operations of [Requests.prototype]

    Each definition follows its source function statement by statement.  An
    operation declared as [function (params, id = "1")] takes both
    arguments; one declared as [function (id = "1")] takes the identifier
    only. *)

(** [base.key] inside an [async] body. *)
Definition member (base : JsVal) (key : string) : Async JsVal :=
  lift (js_get base key).

Section Operations.

Variable node : FetchCall -> Exn + JsVal.

Definition getBalancesByKey (params id_arg : JsVal) : Async JsVal :=
  let id := default_arg id_arg (JStr "1") in
  publicKeys <- member params "publicKeys" ;;
  throw_if (negb (truthy publicKeys) || negb (Array_isArray publicKeys))
           (Error "A list of publicKeys must be specified") ;;
  let route := "wallet/" in
  let method := "balances" in
  LokiRequest node (mkRouteInfo route method id) params.

Definition listOpenKeyfiles (id_arg : JsVal) : Async JsVal :=
  let id := default_arg id_arg (JStr "1") in
  let params := JObj [] in
  let route := "wallet/" in
  let method := "listOpenKeyfiles" in
  LokiRequest node (mkRouteInfo route method id) params.

Definition generateKeyfile (params id_arg : JsVal) : Async JsVal :=
  let id := default_arg id_arg (JStr "1") in
  throw_if (negb (truthy params)) (Error "A parameter object must be specified") ;;
  password <- member params "password" ;;
  throw_if (negb (truthy password)) (Error "A password must be provided to encrypt the keyfile") ;;
  let route := "wallet/" in
  let method := "generateKeyfile" in
  LokiRequest node (mkRouteInfo route method id) params.

Definition lockKeyfile (params id_arg : JsVal) : Async JsVal :=
  let id := default_arg id_arg (JStr "1") in
  throw_if (negb (truthy params)) (Error "A parameter object must be specified") ;;
  publicKey <- member params "publicKey" ;;
  throw_if (negb (truthy publicKey)) (Error "A publicKey field must be specified") ;;
  password <- member params "password" ;;
  throw_if (negb (truthy password)) (Error "A password must be provided to encrypt the keyfile") ;;
  let route := "wallet/" in
  let method := "lockKeyfile" in
  LokiRequest node (mkRouteInfo route method id) params.

Definition unlockKeyfile (params id_arg : JsVal) : Async JsVal :=
  let id := default_arg id_arg (JStr "1") in
  throw_if (negb (truthy params)) (Error "A parameter object must be specified") ;;
  publicKey <- member params "publicKey" ;;
  throw_if (negb (truthy publicKey)) (Error "A publicKey field must be specified") ;;
  password <- member params "password" ;;
  throw_if (negb (truthy password)) (Error "A password must be provided to encrypt the keyfile") ;;
  let route := "wallet/" in
  let method := "unlockKeyfile" in
  LokiRequest node (mkRouteInfo route method id) params.

Definition signTransaction (params id_arg : JsVal) : Async JsVal :=
  let id := default_arg id_arg (JStr "1") in
  throw_if (negb (truthy params)) (Error "A parameter object must be specified") ;;
  publicKey <- member params "publicKey" ;;
  throw_if (negb (truthy publicKey)) (Error "A publicKey field must be specified") ;;
  tx <- member params "tx" ;;
  throw_if (negb (truthy tx)) (Error "A tx object must be specified") ;;
  let route := "wallet/" in
  let method := "signTx" in
  LokiRequest node (mkRouteInfo route method id) params.

Definition broadcastTx (params id_arg : JsVal) : Async JsVal :=
  let id := default_arg id_arg (JStr "1") in
  throw_if (negb (truthy params)) (Error "A parameter object must be specified") ;;
  tx <- member params "tx" ;;
  throw_if (negb (truthy tx)) (Error "A tx object must be specified") ;;
  let route := "wallet/" in
  let method := "broadcastTx" in
  LokiRequest node (mkRouteInfo route method id) params.

Definition transferPolys (params id_arg : JsVal) : Async JsVal :=
  let id := default_arg id_arg (JStr "1") in
  throw_if (negb (truthy params)) (Error "A parameter object must be specified") ;;
  recipient <- member params "recipient" ;;
  throw_if (negb (truthy recipient)) (Error "A recipient must be specified") ;;
  amount <- member params "amount" ;;
  throw_if (negb (truthy amount)) (Error "An amount must be specified") ;;
  fee <- member params "fee" ;;
  throw_if (negb (truthy fee) && not_strict_zero fee) (Error "A fee must be specified") ;;
  let route := "wallet/" in
  let method := "transferPolys" in
  LokiRequest node (mkRouteInfo route method id) params.

Definition transferArbits (params id_arg : JsVal) : Async JsVal :=
  let id := default_arg id_arg (JStr "1") in
  throw_if (negb (truthy params)) (Error "A parameter object must be specified") ;;
  recipient <- member params "recipient" ;;
  throw_if (negb (truthy recipient)) (Error "A recipient must be specified") ;;
  amount <- member params "amount" ;;
  throw_if (negb (truthy amount)) (Error "An amount must be specified") ;;
  fee <- member params "fee" ;;
  throw_if (negb (truthy fee) && not_strict_zero fee) (Error "A fee must be specified") ;;
  let route := "wallet/" in
  let method := "transferArbits" in
  LokiRequest node (mkRouteInfo route method id) params.

Definition createAssets (params id_arg : JsVal) : Async JsVal :=
  let id := default_arg id_arg (JStr "1") in
  throw_if (negb (truthy params)) (Error "A parameter object must be specified") ;;
  issuer <- member params "issuer" ;;
  throw_if (negb (truthy issuer)) (Error "An asset issuer must be specified") ;;
  assetCode <- member params "assetCode" ;;
  throw_if (negb (truthy assetCode)) (Error "An assetCode must be specified") ;;
  recipient <- member params "recipient" ;;
  throw_if (negb (truthy recipient)) (Error "A recipient must be specified") ;;
  amount <- member params "amount" ;;
  throw_if (negb (truthy amount)) (Error "An amount must be specified") ;;
  fee <- member params "fee" ;;
  throw_if (negb (truthy fee) && not_strict_zero fee) (Error "A fee must be specified") ;;
  let route := "asset/" in
  let method := "createAssets" in
  LokiRequest node (mkRouteInfo route method id) params.

Definition createAssetsPrototype (params id_arg : JsVal) : Async JsVal :=
  let id := default_arg id_arg (JStr "1") in
  throw_if (negb (truthy params)) (Error "A parameter object must be specified") ;;
  issuer <- member params "issuer" ;;
  throw_if (negb (truthy issuer)) (Error "An asset issuer must be specified") ;;
  assetCode <- member params "assetCode" ;;
  throw_if (negb (truthy assetCode)) (Error "An assetCode must be specified") ;;
  recipient <- member params "recipient" ;;
  throw_if (negb (truthy recipient)) (Error "A recipient must be specified") ;;
  amount <- member params "amount" ;;
  throw_if (negb (truthy amount)) (Error "An amount must be specified") ;;
  fee <- member params "fee" ;;
  throw_if (negb (truthy fee) && not_strict_zero fee) (Error "A fee must be specified") ;;
  let route := "asset/" in
  let method := "createAssetsPrototype" in
  LokiRequest node (mkRouteInfo route method id) params.

Definition transferAssets (params id_arg : JsVal) : Async JsVal :=
  let id := default_arg id_arg (JStr "1") in
  throw_if (negb (truthy params)) (Error "A parameter object must be specified") ;;
  issuer <- member params "issuer" ;;
  throw_if (negb (truthy issuer)) (Error "An asset issuer must be specified") ;;
  assetCode <- member params "assetCode" ;;
  throw_if (negb (truthy assetCode)) (Error "An assetCode must be specified") ;;
  recipient <- member params "recipient" ;;
  throw_if (negb (truthy recipient)) (Error "A recipient must be specified") ;;
  amount <- member params "amount" ;;
  throw_if (negb (truthy amount)) (Error "An amount must be specified") ;;
  fee <- member params "fee" ;;
  throw_if (negb (truthy fee) && not_strict_zero fee) (Error "A fee must be specified") ;;
  let route := "asset/" in
  let method := "transferAssets" in
  LokiRequest node (mkRouteInfo route method id) params.

Definition transferAssetsPrototype (params id_arg : JsVal) : Async JsVal :=
  let id := default_arg id_arg (JStr "1") in
  throw_if (negb (truthy params)) (Error "A parameter object must be specified") ;;
  issuer <- member params "issuer" ;;
  throw_if (negb (truthy issuer)) (Error "An asset issuer must be specified") ;;
  assetCode <- member params "assetCode" ;;
  throw_if (negb (truthy assetCode)) (Error "An assetCode must be specified") ;;
  recipient <- member params "recipient" ;;
  throw_if (negb (truthy recipient)) (Error "A recipient must be specified") ;;
  sender <- member params "sender" ;;
  throw_if (negb (truthy sender)) (Error "A sender must be specified") ;;
  amount <- member params "amount" ;;
  throw_if (negb (truthy amount)) (Error "An amount must be specified") ;;
  fee <- member params "fee" ;;
  throw_if (negb (truthy fee) && not_strict_zero fee) (Error "A fee must be specified") ;;
  let route := "asset/" in
  let method := "transferAssetsPrototype" in
  LokiRequest node (mkRouteInfo route method id) params.

Definition transferTargetAssets (params id_arg : JsVal) : Async JsVal :=
  let id := default_arg id_arg (JStr "1") in
  throw_if (negb (truthy params)) (Error "A parameter object must be specified") ;;
  recipient <- member params "recipient" ;;
  throw_if (negb (truthy recipient)) (Error "A recipient must be specified") ;;
  assetId <- member params "assetId" ;;
  throw_if (negb (truthy assetId)) (Error "An assetId is required for this request") ;;
  amount <- member params "amount" ;;
  throw_if (negb (truthy amount)) (Error "An amount must be specified") ;;
  fee <- member params "fee" ;;
  throw_if (negb (truthy fee) && not_strict_zero fee) (Error "A fee must be specified") ;;
  let route := "asset/" in
  let method := "transferTargetAssets" in
  LokiRequest node (mkRouteInfo route method id) params.

Definition transferTargetAssetsPrototype (params id_arg : JsVal) : Async JsVal :=
  let id := default_arg id_arg (JStr "1") in
  throw_if (negb (truthy params)) (Error "A parameter object must be specified") ;;
  recipient <- member params "recipient" ;;
  throw_if (negb (truthy recipient)) (Error "A recipient must be specified") ;;
  sender <- member params "sender" ;;
  throw_if (negb (truthy sender)) (Error "A sender must be specified") ;;
  assetId <- member params "assetId" ;;
  throw_if (negb (truthy assetId)) (Error "An assetId is required for this request") ;;
  amount <- member params "amount" ;;
  throw_if (negb (truthy amount)) (Error "An amount must be specified") ;;
  fee <- member params "fee" ;;
  throw_if (negb (truthy fee) && not_strict_zero fee) (Error "A fee must be specified") ;;
  let route := "asset/" in
  let method := "transferTargetAssetsPrototype" in
  LokiRequest node (mkRouteInfo route method id) params.

Definition getTransactionById (params id_arg : JsVal) : Async JsVal :=
  let id := default_arg id_arg (JStr "1") in
  throw_if (negb (truthy params)) (Error "A parameter object must be specified") ;;
  transactionId <- member params "transactionId" ;;
  throw_if (negb (truthy transactionId)) (Error "A transactionId must be specified") ;;
  let route := "nodeView/" in
  let method := "transactionById" in
  LokiRequest node (mkRouteInfo route method id) params.

Definition getTransactionFromMempool (params id_arg : JsVal) : Async JsVal :=
  let id := default_arg id_arg (JStr "1") in
  throw_if (negb (truthy params)) (Error "A parameter object must be specified") ;;
  transactionId <- member params "transactionId" ;;
  throw_if (negb (truthy transactionId)) (Error "A transactionId must be specified") ;;
  let route := "nodeView/" in
  let method := "transactionFromMempool" in
  LokiRequest node (mkRouteInfo route method id) params.

Definition getMempool (id_arg : JsVal) : Async JsVal :=
  let id := default_arg id_arg (JStr "1") in
  let params := JObj [] in
  let route := "nodeView/" in
  let method := "mempool" in
  LokiRequest node (mkRouteInfo route method id) params.

Definition getBlockById (params id_arg : JsVal) : Async JsVal :=
  let id := default_arg id_arg (JStr "1") in
  throw_if (negb (truthy params)) (Error "A parameter object must be specified") ;;
  blockId <- member params "blockId" ;;
  throw_if (negb (truthy blockId)) (Error "A blockId must be specified") ;;
  let route := "nodeView/" in
  let method := "blockById" in
  LokiRequest node (mkRouteInfo route method id) params.

Definition chainInfo (id_arg : JsVal) : Async JsVal :=
  let id := default_arg id_arg (JStr "1") in
  let params := JObj [] in
  let route := "debug/" in
  let method := "info" in
  LokiRequest node (mkRouteInfo route method id) params.

(** [calcDelay] is declared as [function (id = "1")]: the identifier
    [params] of its body is not a parameter, so each occurrence is
    resolved outside the function. *)
Definition calcDelay (id_arg : JsVal) : Async JsVal :=
  let id := default_arg id_arg (JStr "1") in
  params <- resolve_free "params" ;;
  throw_if (negb (truthy params)) (Error "A parameter object must be specified") ;;
  params <- resolve_free "params" ;;
  blockId <- member params "blockId" ;;
  throw_if (negb (truthy blockId)) (Error "A blockId must be specified") ;;
  params <- resolve_free "params" ;;
  numBlocks <- member params "numBlocks" ;;
  throw_if (negb (truthy numBlocks)) (Error "A number of blocks must be specified") ;;
  let route := "debug/" in
  let method := "delay" in
  params <- resolve_free "params" ;;
  LokiRequest node (mkRouteInfo route method id) params.

Definition myBlocks (id_arg : JsVal) : Async JsVal :=
  let id := default_arg id_arg (JStr "1") in
  let params := JObj [] in
  let route := "debug/" in
  let method := "myBlocks" in
  LokiRequest node (mkRouteInfo route method id) params.

Definition blockGenerators (id_arg : JsVal) : Async JsVal :=
  let id := default_arg id_arg (JStr "1") in
  let params := JObj [] in
  let route := "debug/" in
  let method := "generators" in
  LokiRequest node (mkRouteInfo route method id) params.

Definition printChain (id_arg : JsVal) : Async JsVal :=
  let id := default_arg id_arg (JStr "1") in
  let params := JObj [] in
  let route := "debug/" in
  let method := "chain" in
  LokiRequest node (mkRouteInfo route method id) params.

End Operations.

(** The names of the operations. *)
Inductive operation : Type :=
| op_getBalancesByKey
| op_listOpenKeyfiles
| op_generateKeyfile
| op_lockKeyfile
| op_unlockKeyfile
| op_signTransaction
| op_broadcastTx
| op_transferPolys
| op_transferArbits
| op_createAssets
| op_createAssetsPrototype
| op_transferAssets
| op_transferAssetsPrototype
| op_transferTargetAssets
| op_transferTargetAssetsPrototype
| op_getTransactionById
| op_getTransactionFromMempool
| op_getMempool
| op_getBlockById
| op_chainInfo
| op_calcDelay
| op_myBlocks
| op_blockGenerators
| op_printChain.

(** The [i]-th actual argument of a call; a missing argument is
    [undefined]. *)
Definition arg (i : nat) (args : list JsVal) : JsVal := nth i args JUndefined.

(** [client.op(...args)]. *)
Definition invoke (node : FetchCall -> Exn + JsVal) (op : operation)
  (args : list JsVal) : Async JsVal :=
  match op with
  | op_getBalancesByKey => getBalancesByKey node (arg 0 args) (arg 1 args)
  | op_listOpenKeyfiles => listOpenKeyfiles node (arg 0 args)
  | op_generateKeyfile => generateKeyfile node (arg 0 args) (arg 1 args)
  | op_lockKeyfile => lockKeyfile node (arg 0 args) (arg 1 args)
  | op_unlockKeyfile => unlockKeyfile node (arg 0 args) (arg 1 args)
  | op_signTransaction => signTransaction node (arg 0 args) (arg 1 args)
  | op_broadcastTx => broadcastTx node (arg 0 args) (arg 1 args)
  | op_transferPolys => transferPolys node (arg 0 args) (arg 1 args)
  | op_transferArbits => transferArbits node (arg 0 args) (arg 1 args)
  | op_createAssets => createAssets node (arg 0 args) (arg 1 args)
  | op_createAssetsPrototype => createAssetsPrototype node (arg 0 args) (arg 1 args)
  | op_transferAssets => transferAssets node (arg 0 args) (arg 1 args)
  | op_transferAssetsPrototype => transferAssetsPrototype node (arg 0 args) (arg 1 args)
  | op_transferTargetAssets => transferTargetAssets node (arg 0 args) (arg 1 args)
  | op_transferTargetAssetsPrototype => transferTargetAssetsPrototype node (arg 0 args) (arg 1 args)
  | op_getTransactionById => getTransactionById node (arg 0 args) (arg 1 args)
  | op_getTransactionFromMempool => getTransactionFromMempool node (arg 0 args) (arg 1 args)
  | op_getMempool => getMempool node (arg 0 args)
  | op_getBlockById => getBlockById node (arg 0 args) (arg 1 args)
  | op_chainInfo => chainInfo node (arg 0 args)
  | op_calcDelay => calcDelay node (arg 0 args)
  | op_myBlocks => myBlocks node (arg 0 args)
  | op_blockGenerators => blockGenerators node (arg 0 args)
  | op_printChain => printChain node (arg 0 args)
  end.

(** ** The catalogue of operations

    The operations differ only in constants: where the parameter object
    comes from, whether its presence is checked, which fields are checked in
    which order with which message, and the route and method handed to
    [LokiRequest].  The catalogue records those constants per operation;
    [Catalog.model] is the operation they describe, and the source
    functions are shown to agree with it call by call. *)

Module Catalog.

(** What a check demands of a field's value. *)
Inductive requirement : Type :=
| Truthy          (* [!params.f] *)
| TruthyOrZero    (* [!params.f && params.f !== 0] *)
| TruthyArray.    (* [!params.f || !Array.isArray(params.f)] *)

Record FieldRule : Type := mkRule {
  field : string;
  message : string;
  demands : requirement
}.

(** Where the parameter object of an operation comes from. *)
Inductive params_source : Type :=
| FirstArgument   (* [function (params, id = "1")] *)
| EmptyObject     (* [function (id = "1")] with [const params = {}] *)
| FreeIdentifier. (* [function (id = "1")] whose body mentions [params] *)

Record Descriptor : Type := mkDescriptor {
  route_of : string;
  method_of : string;
  params_from : params_source;
  guarded : bool;           (* starts with [if (!params) throw ...] *)
  rules : list FieldRule
}.

(** Does value [v] violate the demand? *)
Definition violates (d : requirement) (v : JsVal) : bool :=
  match d with
  | Truthy => negb (truthy v)
  | TruthyOrZero => negb (truthy v) && not_strict_zero v
  | TruthyArray => negb (truthy v) || negb (Array_isArray v)
  end.

Definition no_params_message : string := "A parameter object must be specified".

Definition need_publicKeys : FieldRule :=
  mkRule "publicKeys" "A list of publicKeys must be specified" TruthyArray.
Definition need_password : FieldRule :=
  mkRule "password" "A password must be provided to encrypt the keyfile" Truthy.
Definition need_publicKey : FieldRule :=
  mkRule "publicKey" "A publicKey field must be specified" Truthy.
Definition need_tx : FieldRule :=
  mkRule "tx" "A tx object must be specified" Truthy.
Definition need_recipient : FieldRule :=
  mkRule "recipient" "A recipient must be specified" Truthy.
Definition need_amount : FieldRule :=
  mkRule "amount" "An amount must be specified" Truthy.
Definition need_fee : FieldRule :=
  mkRule "fee" "A fee must be specified" TruthyOrZero.
Definition need_issuer : FieldRule :=
  mkRule "issuer" "An asset issuer must be specified" Truthy.
Definition need_assetCode : FieldRule :=
  mkRule "assetCode" "An assetCode must be specified" Truthy.
Definition need_sender : FieldRule :=
  mkRule "sender" "A sender must be specified" Truthy.
Definition need_assetId : FieldRule :=
  mkRule "assetId" "An assetId is required for this request" Truthy.
Definition need_transactionId : FieldRule :=
  mkRule "transactionId" "A transactionId must be specified" Truthy.
Definition need_blockId : FieldRule :=
  mkRule "blockId" "A blockId must be specified" Truthy.
Definition need_numBlocks : FieldRule :=
  mkRule "numBlocks" "A number of blocks must be specified" Truthy.

Definition descriptor (op : operation) : Descriptor :=
  match op with
  | op_getBalancesByKey =>
      mkDescriptor "wallet/" "balances" FirstArgument false
        [need_publicKeys]
  | op_listOpenKeyfiles =>
      mkDescriptor "wallet/" "listOpenKeyfiles" EmptyObject false
        []
  | op_generateKeyfile =>
      mkDescriptor "wallet/" "generateKeyfile" FirstArgument true
        [need_password]
  | op_lockKeyfile =>
      mkDescriptor "wallet/" "lockKeyfile" FirstArgument true
        [need_publicKey; need_password]
  | op_unlockKeyfile =>
      mkDescriptor "wallet/" "unlockKeyfile" FirstArgument true
        [need_publicKey; need_password]
  | op_signTransaction =>
      mkDescriptor "wallet/" "signTx" FirstArgument true
        [need_publicKey; need_tx]
  | op_broadcastTx =>
      mkDescriptor "wallet/" "broadcastTx" FirstArgument true
        [need_tx]
  | op_transferPolys =>
      mkDescriptor "wallet/" "transferPolys" FirstArgument true
        [need_recipient; need_amount; need_fee]
  | op_transferArbits =>
      mkDescriptor "wallet/" "transferArbits" FirstArgument true
        [need_recipient; need_amount; need_fee]
  | op_createAssets =>
      mkDescriptor "asset/" "createAssets" FirstArgument true
        [need_issuer; need_assetCode; need_recipient; need_amount; need_fee]
  | op_createAssetsPrototype =>
      mkDescriptor "asset/" "createAssetsPrototype" FirstArgument true
        [need_issuer; need_assetCode; need_recipient; need_amount; need_fee]
  | op_transferAssets =>
      mkDescriptor "asset/" "transferAssets" FirstArgument true
        [need_issuer; need_assetCode; need_recipient; need_amount; need_fee]
  | op_transferAssetsPrototype =>
      mkDescriptor "asset/" "transferAssetsPrototype" FirstArgument true
        [need_issuer; need_assetCode; need_recipient; need_sender; need_amount; need_fee]
  | op_transferTargetAssets =>
      mkDescriptor "asset/" "transferTargetAssets" FirstArgument true
        [need_recipient; need_assetId; need_amount; need_fee]
  | op_transferTargetAssetsPrototype =>
      mkDescriptor "asset/" "transferTargetAssetsPrototype" FirstArgument true
        [need_recipient; need_sender; need_assetId; need_amount; need_fee]
  | op_getTransactionById =>
      mkDescriptor "nodeView/" "transactionById" FirstArgument true
        [need_transactionId]
  | op_getTransactionFromMempool =>
      mkDescriptor "nodeView/" "transactionFromMempool" FirstArgument true
        [need_transactionId]
  | op_getMempool =>
      mkDescriptor "nodeView/" "mempool" EmptyObject false
        []
  | op_getBlockById =>
      mkDescriptor "nodeView/" "blockById" FirstArgument true
        [need_blockId]
  | op_chainInfo =>
      mkDescriptor "debug/" "info" EmptyObject false
        []
  | op_calcDelay =>
      mkDescriptor "debug/" "delay" FreeIdentifier true
        [need_blockId; need_numBlocks]
  | op_myBlocks =>
      mkDescriptor "debug/" "myBlocks" EmptyObject false
        []
  | op_blockGenerators =>
      mkDescriptor "debug/" "generators" EmptyObject false
        []
  | op_printChain =>
      mkDescriptor "debug/" "chain" EmptyObject false
        []
  end.

Section Model.

Variable node : FetchCall -> Exn + JsVal.

(** The field checks, in order, stopping at the first violation. *)
Fixpoint check_fields {A} (params : JsVal) (rs : list FieldRule)
  (continue : Async A) : Async A :=
  match rs with
  | [] => continue
  | r :: rest =>
      v <- member params (field r) ;;
      throw_if (violates (demands r) v) (Error (message r)) ;;
      check_fields params rest continue
  end.

Definition check_present (d : Descriptor) (params : JsVal) : Async unit :=
  if guarded d then throw_if (negb (truthy params)) (Error no_params_message)
  else ret tt.

Definition dispatch (d : Descriptor) (id params : JsVal) : Async JsVal :=
  LokiRequest node (mkRouteInfo (route_of d) (method_of d) id) params.

Definition model (d : Descriptor) (args : list JsVal) : Async JsVal :=
  match params_from d with
  | EmptyObject =>
      dispatch d (default_arg (arg 0 args) (JStr "1")) (JObj [])
  | FirstArgument =>
      let params := arg 0 args in
      check_present d params ;;
      check_fields params (rules d)
        (dispatch d (default_arg (arg 1 args) (JStr "1")) params)
  | FreeIdentifier =>
      params <- resolve_free "params" ;;
      check_present d params ;;
      check_fields params (rules d)
        (dispatch d (default_arg (arg 0 args) (JStr "1")) params)
  end.

End Model.

(** The first complaint of the validation of [params] against a
    descriptor, if any: what the call rejects with before it reaches
    [LokiRequest]. *)
Fixpoint first_violation (params : JsVal) (rs : list FieldRule) : option Exn :=
  match rs with
  | [] => None
  | r :: rest =>
      match js_get params (field r) with
      | inl e => Some e
      | inr v =>
          if violates (demands r) v then Some (Error (message r))
          else first_violation params rest
      end
  end.

Definition complaint (d : Descriptor) (params : JsVal) : option Exn :=
  if guarded d && negb (truthy params) then Some (Error no_params_message)
  else first_violation params (rules d).

(** The parameter object, the request identifier and the local verdict of
    a call, read off the descriptor. *)
Definition params_of (d : Descriptor) (args : list JsVal) (w : World)
  : Exn + JsVal :=
  match params_from d with
  | EmptyObject => inr (JObj [])
  | FirstArgument => inr (arg 0 args)
  | FreeIdentifier =>
      match lookup "params" (globals w) with
      | Some v => inr v
      | None => inl (ReferenceError "params")
      end
  end.

Definition id_of (d : Descriptor) (args : list JsVal) : JsVal :=
  match params_from d with
  | FirstArgument => default_arg (arg 1 args) (JStr "1")
  | EmptyObject | FreeIdentifier => default_arg (arg 0 args) (JStr "1")
  end.

Definition verdict (d : Descriptor) (args : list JsVal) (w : World)
  : Exn + JsVal :=
  match params_of d args w with
  | inl e => inl e
  | inr params =>
      match params_from d with
      | EmptyObject => inr params
      | _ => match complaint d params with
             | Some e => inl e
             | None => inr params
             end
      end
  end.

End Catalog.

(** ** Vocabulary of the statements *)

(** The call that [LokiRequest] hands to [fetch] for a client [self]. *)
Definition request_of (self : Requests) (routeInfo : RouteInfo) (params : JsVal)
  : FetchCall :=
  let tgt := js_plus (url self) (route routeInfo) in
  mkFetchCall tgt
    (mkPayload tgt "POST" (headers self)
       (JSON_stringify (envelope routeInfo params))).

(** The state after one more [fetch] call. *)
Definition posted (w : World) (call : FetchCall) : World :=
  mkWorld (this w) (globals w) (network w ++ [call])%list.

(** How [LokiRequest] settles on what the node answers to [call]. *)
Definition settle (node : FetchCall -> Exn + JsVal) (call : FetchCall)
  : Exn + JsVal :=
  match node call with
  | inl e => inl e
  | inr response =>
      match js_get response "error" with
      | inl e => inl e
      | inr error => if truthy error then inl (Thrown response) else inr response
      end
  end.

(** A call was rejected before any [fetch]: the state is untouched. *)
Definition rejected_locally (before : World) (r : World * (Exn + JsVal))
  (e : Exn) : Prop :=
  r = (before, inl e).

(** [needle] occurs in [hay]. *)
Definition mentions (hay needle : string) : bool :=
  match index 0 needle hay with
  | Some _ => true
  | None => false
  end.

(** JSON text written with apostrophes in place of double quotes. *)
Fixpoint json_text (s : string) : string :=
  match s with
  | EmptyString => EmptyString
  | String c rest =>
      String (if (c =? "'")%char then "034"%char else c) (json_text rest)
  end.

(** The operations whose parameter object carries [amount] and [fee]. *)
Definition fee_operations : list operation :=
  [op_transferPolys; op_transferArbits; op_createAssets;
   op_createAssetsPrototype; op_transferAssets; op_transferAssetsPrototype;
   op_transferTargetAssets; op_transferTargetAssetsPrototype].

(** The names of the fields an operation checks, in checking order. *)
Definition required_fields (op : operation) : list string :=
  map Catalog.field (Catalog.rules (Catalog.descriptor op)).

(** The names that precede [f] in a list of field names. *)
Fixpoint fields_before (f : string) (fs : list string) : list string :=
  match fs with
  | [] => []
  | g :: rest => if g =? f then [] else g :: fields_before f rest
  end.

(** The identifier argument as the caller wrote it, before the default. *)
Definition id_argument (op : operation) (args : list JsVal) : JsVal :=
  match Catalog.params_from (Catalog.descriptor op) with
  | Catalog.FirstArgument => arg 1 args
  | Catalog.EmptyObject | Catalog.FreeIdentifier => arg 0 args
  end.



Definition is_digit (c : ascii) : bool :=
  (48 <=? nat_of_ascii c)%nat && (nat_of_ascii c <=? 57)%nat.

(** A property name that is neither an index nor [length]. *)
Definition plain_name (k : string) : bool :=
  match k with
  | EmptyString => false
  | String c _ => negb (is_digit c) && negb (k =? "length")
  end.

(** Sample data: a fresh default client on a quiet network, and nodes that
    always give the same answer. *)
Definition fresh_world : World :=
  mkWorld (new_Requests JUndefined JUndefined) [] [].

Definition node_answering (body : JsVal) : FetchCall -> Exn + JsVal :=
  fun _ => inr body.

Definition ok_result : JsVal := JObj [("ok", JBool true)].
Definition ok_body : JsVal := JObj [("result", ok_result)].
Definition error_payload : JsVal :=
  JObj [("code", JNum 1); ("message", JStr "x")].
Definition error_body : JsVal := JObj [("error", error_payload)].
Definition null_error_body : JsVal :=
  JObj [("jsonrpc", JStr "2.0"); ("result", JNum 7); ("error", JNull)].

(** A call of one of the two setters, and the state after a sequence of
    such calls made in order. *)
Inductive setter_call : Type :=
| SetUrl (u : JsVal)
| SetApiKey (k : JsVal).

Definition run_setter (c : setter_call) : Async unit :=
  match c with
  | SetUrl u => setUrl u
  | SetApiKey k => setApiKey k
  end.

Fixpoint run_setters (cs : list setter_call) (w : World) : World :=
  match cs with
  | [] => w
  | c :: rest => run_setters rest (fst (run_setter c w))
  end.

(** The value given by the last [setUrl] (resp. [setApiKey]) of a sequence,
    or [start] when there is none. *)
Definition last_url (cs : list setter_call) (start : JsVal) : JsVal :=
  fold_left (fun acc c => match c with SetUrl u => u | SetApiKey _ => acc end)
    cs start.

Definition last_key (cs : list setter_call) (start : JsVal) : JsVal :=
  fold_left (fun acc c => match c with SetApiKey k => k | SetUrl _ => acc end)
    cs start.

(** A world with a global variable [params], and a node that rejects. *)
Definition world_with_global_params (p : JsVal) : World :=
  mkWorld (new_Requests JUndefined JUndefined) [("params", p)] [].

Definition node_failing (e : Exn) : FetchCall -> Exn + JsVal :=
  fun _ => inl e.

(** Case analysis on membership in a listed set of operations or rules. *)
Ltac each_listed H :=
  cbn in H; repeat (destruct H as [<- | H]); try contradiction.

(** ** How a call runs *)

Lemma LokiRequest_run node routeInfo params w :
  LokiRequest node routeInfo params w
  = (posted w (request_of (this w) routeInfo params),
     settle node (request_of (this w) routeInfo params)).
Proof.
  unfold LokiRequest, try_catch, bind, read_this, fetch_json, lift, settle,
    posted, request_of, throw, ret.
  cbn.
  destruct (node _) as [e | response]; [reflexivity |].
  destruct (js_get response "error") as [e | error]; [reflexivity |].
  destruct (truthy error); reflexivity.
Qed.

Lemma throw_if_run A cond e (k : Async A) w :
  (throw_if cond e ;; k) w = if cond then (w, inl e) else k w.
Proof. unfold bind, throw_if. destruct cond; reflexivity. Qed.

Lemma member_run A base key (k : JsVal -> Async A) w :
  (v <- member base key ;; k v) w
  = match js_get base key with
    | inl e => (w, inl e)
    | inr v => k v w
    end.
Proof. unfold bind, member, lift. destruct (js_get base key); reflexivity. Qed.

Lemma resolve_free_run A name (k : JsVal -> Async A) w :
  (v <- resolve_free name ;; k v) w
  = match lookup name (globals w) with
    | Some v => k v w
    | None => (w, inl (ReferenceError name))
    end.
Proof.
  unfold bind, resolve_free. destruct (lookup name (globals w)); reflexivity.
Qed.

Lemma check_fields_run A params rs (k : Async A) w :
  Catalog.check_fields params rs k w
  = match Catalog.first_violation params rs with
    | Some e => (w, inl e)
    | None => k w
    end.
Proof.
  induction rs as [| r rest IH]; cbn [Catalog.check_fields Catalog.first_violation].
  - reflexivity.
  - rewrite member_run. destruct (js_get params (Catalog.field r)) as [e | v].
    + reflexivity.
    + rewrite throw_if_run.
      destruct (Catalog.violates (Catalog.demands r) v); [reflexivity | exact IH].
Qed.

Lemma check_present_run A d params (k : Async A) w :
  (Catalog.check_present d params ;; k) w
  = if Catalog.guarded d && negb (truthy params)
    then (w, inl (Error Catalog.no_params_message))
    else k w.
Proof.
  unfold Catalog.check_present.
  destruct (Catalog.guarded d); cbn [andb].
  - apply throw_if_run.
  - reflexivity.
Qed.

(** The model of a descriptor either stops at its verdict, leaving the state
    as it was, or hands the parameter object to [LokiRequest]. *)
Lemma model_run node d args w :
  Catalog.model node d args w
  = match Catalog.verdict d args w with
    | inl e => (w, inl e)
    | inr params =>
        LokiRequest node
          (mkRouteInfo (Catalog.route_of d) (Catalog.method_of d)
             (Catalog.id_of d args)) params w
    end.
Proof.
  unfold Catalog.model, Catalog.verdict, Catalog.params_of, Catalog.id_of,
    Catalog.dispatch, Catalog.complaint.
  destruct (Catalog.params_from d).
  - rewrite check_present_run.
    destruct (Catalog.guarded d && negb (truthy (arg 0 args))); [reflexivity |].
    rewrite check_fields_run.
    destruct (Catalog.first_violation _ _); reflexivity.
  - reflexivity.
  - unfold bind at 1, resolve_free.
    destruct (lookup "params" (globals w)) as [p |]; [| reflexivity].
    rewrite check_present_run.
    destruct (Catalog.guarded d && negb (truthy p)); [reflexivity |].
    rewrite check_fields_run.
    destruct (Catalog.first_violation _ _); reflexivity.
Qed.

(** Every source function agrees with the model of its descriptor. *)
Lemma invoke_model node op args w :
  invoke node op args w = Catalog.model node (Catalog.descriptor op) args w.
Proof.
  destruct op; try reflexivity.
  (* calcDelay resolves [params] anew at each mention *)
  cbn [invoke Catalog.model Catalog.descriptor Catalog.params_from
       Catalog.rules Catalog.check_fields].
  unfold calcDelay, Catalog.check_present, Catalog.dispatch; cbn.
  rewrite !resolve_free_run.
  destruct (lookup "params" (globals w)) as [p |] eqn:Hp; [| reflexivity].
  rewrite !throw_if_run.
  destruct (negb (truthy p)); [reflexivity |].
  rewrite resolve_free_run, Hp, !member_run.
  destruct (js_get p "blockId") as [e | b]; [reflexivity |].
  rewrite !throw_if_run.
  destruct (negb (truthy b)); [reflexivity |].
  rewrite resolve_free_run, Hp, !member_run.
  destruct (js_get p "numBlocks") as [e | n]; [reflexivity |].
  rewrite !throw_if_run.
  destruct (negb (truthy n)); [reflexivity |].
  rewrite resolve_free_run, Hp. reflexivity.
Qed.

(** The run of any call, in one equation. *)
Lemma invoke_run node op args w :
  invoke node op args w
  = match Catalog.verdict (Catalog.descriptor op) args w with
    | inl e => (w, inl e)
    | inr params =>
        let call :=
          request_of (this w)
            (mkRouteInfo (Catalog.route_of (Catalog.descriptor op))
               (Catalog.method_of (Catalog.descriptor op))
               (Catalog.id_of (Catalog.descriptor op) args)) params in
        (posted w call, settle node call)
    end.
Proof.
  rewrite invoke_model, model_run.
  destruct (Catalog.verdict _ _ _); [reflexivity |].
  apply LokiRequest_run.
Qed.

(** ** Objects, property names and the field checks *)

Lemma posted_neq w call : posted w call <> w.
Proof.
  intros H. apply (f_equal network) in H. cbn in H.
  apply (f_equal (@length FetchCall)) in H.
  rewrite length_app in H. cbn in H. lia.
Qed.

Lemma prop_set_prop_same k v ps : prop k (set_prop k v ps) = v.
Proof.
  unfold prop. induction ps as [| [k' v'] rest IH]; cbn.
  - rewrite String.eqb_refl. reflexivity.
  - destruct (k' =? k) eqn:E; cbn; rewrite E; [reflexivity | exact IH].
Qed.

Lemma string_of_nat_head n :
  exists c rest, string_of_nat n = String c rest /\ is_digit c = true.
Proof.
  unfold string_of_nat.
  destruct (Nat.to_uint n); cbn; eauto.
Qed.

Lemma index_named_plain k i bound :
  plain_name k = true -> index_named k i bound = None.
Proof.
  intros Hk. revert i.
  induction bound as [| b IH]; intros i; cbn; [reflexivity |].
  destruct (string_of_nat i =? k) eqn:E; [| apply IH].
  apply String.eqb_eq in E.
  destruct (string_of_nat_head i) as (c & rest & Hs & Hc).
  rewrite Hs in E. subst k. cbn in Hk. rewrite Hc in Hk. discriminate.
Qed.

(** Only an object has a defined value under a plain property name. *)
Lemma js_get_plain base k v :
  plain_name k = true ->
  js_get base k = inr v ->
  v <> JUndefined ->
  exists ps, base = JObj ps.
Proof.
  intros Hk Hget Hv.
  assert (Hlen : (k =? "length") = false).
  { destruct k as [| c k']; [discriminate |].
    cbn [plain_name] in Hk. apply andb_true_iff in Hk as [_ Hk].
    now apply negb_true_iff in Hk. }
  destruct base; cbn in Hget; try discriminate;
    try (injection Hget as <-; now contradiction Hv).
  - rewrite Hlen, index_named_plain in Hget by assumption.
    injection Hget as <-. now contradiction Hv.
  - rewrite Hlen, index_named_plain in Hget by assumption.
    injection Hget as <-. now contradiction Hv.
  - eauto.
Qed.

Lemma violates_undefined d : Catalog.violates d JUndefined = true.
Proof. destruct d; reflexivity. Qed.

(** A value that passes a non-empty list of checks on plain names is an
    object. *)
Lemma passes_is_object params r rest :
  plain_name (Catalog.field r) = true ->
  Catalog.first_violation params (r :: rest) = None ->
  exists ps, params = JObj ps.
Proof.
  intros Hk Hpass. cbn in Hpass.
  destruct (js_get params (Catalog.field r)) as [e | v] eqn:Hget; [discriminate |].
  destruct (Catalog.violates (Catalog.demands r) v) eqn:Hv; [discriminate |].
  apply (js_get_plain _ _ _ Hk Hget).
  intros ->. rewrite violates_undefined in Hv. discriminate.
Qed.

(** Whatever reaches [LokiRequest] as the parameter object is an object. *)
Lemma verdict_object op args w params :
  Catalog.verdict (Catalog.descriptor op) args w = inr params ->
  exists ps, params = JObj ps.
Proof.
  assert (Hchecked : forall d p r rest,
             Catalog.rules d = r :: rest ->
             plain_name (Catalog.field r) = true ->
             match Catalog.complaint d p with
             | Some e => inl e
             | None => inr p
             end = inr params ->
             exists ps, params = JObj ps).
  { intros d p r rest Hrules Hplain. unfold Catalog.complaint.
    rewrite Hrules.
    destruct (Catalog.guarded d && negb (truthy p)); [discriminate |].
    destruct (Catalog.first_violation p (r :: rest)) eqn:Hfv; [discriminate |].
    intros [= <-]. exact (passes_is_object p r rest Hplain Hfv). }
  unfold Catalog.verdict, Catalog.params_of.
  destruct op; cbn [Catalog.descriptor Catalog.params_from];
    try (intros [= <-]; eauto; fail);
    try (destruct (lookup "params" (globals w)); [| discriminate]);
    eapply Hchecked; reflexivity.
Qed.

(** On an object, the checks read the properties and never throw on the
    read itself. *)
Lemma first_violation_passes ps rs :
  (forall r, In r rs ->
     Catalog.violates (Catalog.demands r) (prop (Catalog.field r) ps) = false) ->
  Catalog.first_violation (JObj ps) rs = None.
Proof.
  induction rs as [| r rest IH]; intros H; cbn; [reflexivity |].
  rewrite (H r) by (left; reflexivity).
  apply IH. intros r' Hin. apply H. right; exact Hin.
Qed.

Lemma not_strict_zero_false v : not_strict_zero v = false <-> v = JNum 0.
Proof.
  split.
  - destruct v; cbn; try discriminate.
    intros H. apply negb_false_iff, Z.eqb_eq in H. now subst.
  - intros ->. reflexivity.
Qed.


(** A call is rejected locally exactly when its verdict is a complaint. *)
Lemma rejected_locally_iff node op args w e :
  rejected_locally w (invoke node op args w) e
  <-> Catalog.verdict (Catalog.descriptor op) args w = inl e.
Proof.
  unfold rejected_locally. rewrite invoke_run.
  destruct (Catalog.verdict _ _ _) as [e' | params]; cbn zeta.
  - split; intros [= ->]; reflexivity.
  - split; [| discriminate].
    intros [= H _]. now apply posted_neq in H.
Qed.

(** ** The dispatcher: success and node-reported errors *)

(** C1, as stated, at a concrete call: the node answers [getMempool()] with
    [{"jsonrpc":"2.0","result":7,"error":null}], a body that contains an
    [error] field, yet the call resolves with it; so failing is not
    equivalent to the presence of the field. *)
Lemma error_field_present_yet_resolved :
  let r := snd (invoke (node_answering null_error_body) op_getMempool []
                  fresh_world) in
  has_field "error" null_error_body = true
  /\ r = inr null_error_body
  /\ ~ ((exists e, r = inl e) <-> has_field "error" null_error_body = true).
Proof.
  cbn zeta. rewrite invoke_run. cbn.
  repeat split.
  intros [_ H]. destruct (H eq_refl) as [e He]. discriminate He.
Qed.

(** C1, amended: for every operation call that reaches the dispatch, when
    the node answers the posted request with a parsed body other than
    [null], the call fails if and only if the body's [error] property is
    truthy; it then rejects with the whole body, whose [error] property is
    the node's payload, and otherwise (property absent or falsy) resolves
    with the body as it is. *)
Theorem dispatch_fails_iff_error_truthy
  node op args w params body error :
  let d := Catalog.descriptor op in
  Catalog.verdict d args w = inr params ->
  node (request_of (this w)
          (mkRouteInfo (Catalog.route_of d) (Catalog.method_of d)
             (Catalog.id_of d args)) params) = inr body ->
  js_get body "error" = inr error ->
  let r := snd (invoke node op args w) in
  ((exists e, r = inl e) <-> truthy error = true)
  /\ (truthy error = true -> r = inl (Thrown body))
  /\ (truthy error = false -> r = inr body).
Proof.
  intros d Hpass Hnode Hget. cbn zeta. rewrite invoke_run. fold d.
  rewrite Hpass. cbn [snd]. unfold settle. rewrite Hnode, Hget.
  destruct (truthy error); repeat split; eauto; try discriminate.
  intros [e He]. discriminate He.
Qed.

Lemma dispatch_fails_iff_error_truthy_witness :
  let r := snd (invoke (node_answering error_body) op_getMempool []
                  fresh_world) in
  (exists e, r = inl e) /\ r = inl (Thrown error_body).
Proof.
  destruct (dispatch_fails_iff_error_truthy (node_answering error_body)
              op_getMempool [] fresh_world (JObj []) error_body error_payload
              eq_refl eq_refl eq_refl)
    as (Hiff & Hfail & _).
  split; [apply Hiff; reflexivity | apply Hfail; reflexivity].
Defined.

(** A body of [null] has no [error] field and still makes the dispatch
    fail, on the property read. *)
Lemma null_body_rejected node routeInfo params w :
  node (request_of (this w) routeInfo params) = inr JNull ->
  snd (LokiRequest node routeInfo params w) = inl (TypeError_read JNull "error").
Proof.
  intros Hnode. rewrite LokiRequest_run. cbn [snd]. unfold settle.
  rewrite Hnode. reflexivity.
Qed.

(** A rejection of the transport passes through unchanged. *)
Lemma transport_failure_propagates node routeInfo params w e :
  node (request_of (this w) routeInfo params) = inl e ->
  snd (LokiRequest node routeInfo params w) = inl e.
Proof.
  intros Hnode. rewrite LokiRequest_run. cbn [snd]. unfold settle.
  rewrite Hnode. reflexivity.
Qed.

(** C6, as stated, at a concrete call: with a node answering
    [{"result":{"ok":true}}], [getMempool()] resolves with the whole body,
    which is not the value [{"ok":true}]. *)
Lemma getMempool_resolves_with_whole_body :
  snd (invoke (node_answering ok_body) op_getMempool [] fresh_world)
  = inr ok_body
  /\ snd (invoke (node_answering ok_body) op_getMempool [] fresh_world)
     <> inr ok_result.
Proof.
  split; [reflexivity |].
  cbn. intros H. discriminate H.
Qed.

(** C6, amended: when the node answers every call with the parsed body
    [{"result":{"ok":true}}], every operation call that passes its local
    validation resolves with that whole body, unmodified; the value
    [{"ok":true}] is its [result] property. *)
Theorem call_resolves_with_body node op args w params :
  (forall call, node call = inr ok_body) ->
  Catalog.verdict (Catalog.descriptor op) args w = inr params ->
  snd (invoke node op args w) = inr ok_body
  /\ js_get ok_body "result" = inr ok_result.
Proof.
  intros Hnode Hpass. rewrite invoke_run, Hpass. cbn [snd].
  unfold settle. rewrite Hnode. split; reflexivity.
Qed.

Lemma call_resolves_with_body_witness :
  snd (invoke (node_answering ok_body) op_generateKeyfile
         [JObj [("password", JStr "secret")]] fresh_world)
  = inr ok_body
  /\ js_get ok_body "result" = inr ok_result.
Proof.
  apply (call_resolves_with_body (node_answering ok_body) op_generateKeyfile
           [JObj [("password", JStr "secret")]] fresh_world
           (JObj [("password", JStr "secret")])).
  - intros call. reflexivity.
  - reflexivity.
Defined.

(** ** Calls without a parameter object *)

(** C3 at [getBalancesByKey()]: the function has no [if (!params)] guard,
    so the call rejects on the read of [params.publicKeys] with a
    TypeError, which is not the error "A parameter object must be
    specified"; nothing is posted. *)
Theorem getBalancesByKey_without_params node w :
  invoke node op_getBalancesByKey [] w
  = (w, inl (TypeError_read JUndefined "publicKeys"))
  /\ TypeError_read JUndefined "publicKeys"
     <> Error "A parameter object must be specified".
Proof.
  split; [| discriminate].
  rewrite invoke_run. reflexivity.
Qed.

(** Every operation that starts with the guard and takes the parameter
    object as its first argument rejects a missing (or otherwise falsy)
    parameter object with the guard's error, before any request. *)
Lemma guarded_without_params node op args w :
  Catalog.params_from (Catalog.descriptor op) = Catalog.FirstArgument ->
  Catalog.guarded (Catalog.descriptor op) = true ->
  truthy (arg 0 args) = false ->
  rejected_locally w (invoke node op args w)
    (Error "A parameter object must be specified").
Proof.
  intros Hsrc Hguard Hfalsy. apply rejected_locally_iff.
  unfold Catalog.verdict, Catalog.params_of, Catalog.complaint.
  rewrite Hsrc, Hguard, Hfalsy. reflexivity.
Qed.

(** ** calcDelay *)

(** C7: [calcDelay] never receives a parameter object.  Unless the global
    object happens to define [params], every call, whatever its arguments,
    rejects with a ReferenceError on the first mention of [params]: no field
    is validated and nothing is dispatched to "debug/". *)
Theorem calcDelay_rejects_every_call node args w :
  lookup "params" (globals w) = None ->
  rejected_locally w (invoke node op_calcDelay args w) (ReferenceError "params").
Proof.
  intros Hfree. apply rejected_locally_iff.
  unfold Catalog.verdict, Catalog.params_of. cbn.
  rewrite Hfree. reflexivity.
Qed.

Lemma calcDelay_rejects_every_call_witness :
  rejected_locally fresh_world
    (invoke (node_answering ok_body) op_calcDelay
       [JObj [("blockId", JStr "b1"); ("numBlocks", JNum 10)]; JStr "1"]
       fresh_world)
    (ReferenceError "params").
Proof.
  apply (calcDelay_rejects_every_call (node_answering ok_body)
           [JObj [("blockId", JStr "b1"); ("numBlocks", JNum 10)]; JStr "1"]
           fresh_world).
  reflexivity.
Defined.

(** When a global [params] does exist, it is that value that [calcDelay]
    validates and sends, and the caller's first argument is the request
    identifier. *)
Lemma calcDelay_uses_global_params node args w p :
  lookup "params" (globals w) = Some p ->
  invoke node op_calcDelay args w
  = match Catalog.complaint (Catalog.descriptor op_calcDelay) p with
    | Some e => (w, inl e)
    | None =>
        LokiRequest node
          (mkRouteInfo "debug/" "delay" (default_arg (arg 0 args) (JStr "1")))
          p w
    end.
Proof.
  intros Hp. rewrite invoke_model, model_run.
  unfold Catalog.verdict, Catalog.params_of. cbn [Catalog.descriptor Catalog.params_from].
  rewrite Hp.
  destruct (Catalog.complaint _ p); reflexivity.
Qed.

(** ** Order of the field checks *)

(** C4 at [calcDelay({numBlocks: 3})]: the first required field, [blockId],
    is missing, and the call rejects with a ReferenceError instead of the
    error naming [blockId]. *)
Theorem calcDelay_first_field_missing node :
  invoke node op_calcDelay [JObj [("numBlocks", JNum 3)]] fresh_world
  = (fresh_world, inl (ReferenceError "params"))
  /\ ReferenceError "params" <> Error "A blockId must be specified".
Proof.
  split; [| discriminate].
  rewrite invoke_run. reflexivity.
Qed.

(** For every operation that takes the parameter object as its first
    argument, a parameter object whose first required field is falsy is
    rejected before any request with the message of that field, which
    mentions the field's name, whatever the other fields hold. *)
Lemma first_field_missing node op ps i w r rest :
  Catalog.params_from (Catalog.descriptor op) = Catalog.FirstArgument ->
  Catalog.rules (Catalog.descriptor op) = r :: rest ->
  truthy (prop (Catalog.field r) ps) = false ->
  rejected_locally w (invoke node op [JObj ps; i] w) (Error (Catalog.message r))
  /\ mentions (Catalog.message r) (Catalog.field r) = true.
Proof.
  intros Hsrc Hrules Hfalsy. split.
  - apply rejected_locally_iff.
    unfold Catalog.verdict, Catalog.params_of, Catalog.complaint.
    rewrite Hsrc, Hrules. cbn.
    rewrite andb_false_r.
    assert (Hv : Catalog.violates (Catalog.demands r) (prop (Catalog.field r) ps) = true).
    { destruct op; cbn in Hrules; try discriminate;
        injection Hrules as <- _; cbn in *; rewrite Hfalsy; reflexivity. }
    rewrite Hv. reflexivity.
  - destruct op; cbn in Hrules; try discriminate;
      injection Hrules as <- _; reflexivity.
Qed.

(** ** Zero fees and zero amounts *)

(** C2: for each of [transferPolys], [transferArbits], [createAssets],
    [createAssetsPrototype], [transferAssets], [transferAssetsPrototype],
    [transferTargetAssets] and [transferTargetAssetsPrototype], a parameter
    object whose [fee] is the number 0 and whose other required fields are
    truthy passes validation and is handed to [LokiRequest] with the
    operation's route and method; a parameter object whose [amount] is 0,
    the fields checked before [amount] being truthy, is rejected before any
    request with the error "An amount must be specified". *)
Theorem fee_zero_accepted_amount_zero_rejected node op ps i w :
  In op fee_operations ->
  (prop "fee" ps = JNum 0 ->
   (forall f, In f (required_fields op) -> f <> "fee" ->
              truthy (prop f ps) = true) ->
   invoke node op [JObj ps; i] w
   = LokiRequest node
       (mkRouteInfo (Catalog.route_of (Catalog.descriptor op))
          (Catalog.method_of (Catalog.descriptor op))
          (default_arg i (JStr "1")))
       (JObj ps) w)
  /\ (prop "amount" ps = JNum 0 ->
      (forall f, In f (fields_before "amount" (required_fields op)) ->
                 truthy (prop f ps) = true) ->
      rejected_locally w (invoke node op [JObj ps; i] w)
        (Error "An amount must be specified")).
Proof.
  intros Hop. split.
  - intros Hfee Hothers.
    rewrite invoke_model, model_run.
    assert (Hpass : Catalog.first_violation (JObj ps)
                      (Catalog.rules (Catalog.descriptor op)) = None).
    { apply first_violation_passes. intros r Hr.
      destruct (String.eqb_spec (Catalog.field r) "fee") as [Hf | Hf].
      - assert (Hd : Catalog.demands r = Catalog.TruthyOrZero).
        { each_listed Hop; each_listed Hr; solve [reflexivity | discriminate Hf]. }
        rewrite Hd, Hf, Hfee. reflexivity.
      - assert (Hd : Catalog.demands r = Catalog.Truthy).
        { each_listed Hop; each_listed Hr;
            solve [reflexivity | exfalso; apply Hf; reflexivity]. }
        rewrite Hd. cbn. rewrite Hothers; [reflexivity | | exact Hf].
        unfold required_fields. now apply in_map. }
    unfold Catalog.verdict, Catalog.params_of, Catalog.complaint.
    each_listed Hop; cbn [Catalog.descriptor Catalog.params_from Catalog.guarded
                          arg nth truthy negb andb] in *;
      rewrite Hpass; reflexivity.
  - intros Hamount Hbefore.
    apply rejected_locally_iff.
    unfold Catalog.verdict, Catalog.params_of, Catalog.complaint.
    each_listed Hop;
      cbn -[prop truthy] in *;
      repeat match goal with
        | |- context [truthy (prop ?f ps)] =>
            first [ rewrite (Hbefore f) by tauto
                  | rewrite Hamount ];
            cbn -[prop truthy]
        end;
      reflexivity.
Qed.

Lemma fee_zero_accepted_amount_zero_rejected_witness :
  invoke (node_answering ok_body) op_transferPolys
    [JObj [("recipient", JStr "r"); ("amount", JNum 5); ("fee", JNum 0)];
     JUndefined] fresh_world
  = LokiRequest (node_answering ok_body)
      (mkRouteInfo "wallet/" "transferPolys" (JStr "1"))
      (JObj [("recipient", JStr "r"); ("amount", JNum 5); ("fee", JNum 0)])
      fresh_world
  /\ rejected_locally fresh_world
       (invoke (node_answering ok_body) op_createAssets
          [JObj [("issuer", JStr "i"); ("assetCode", JStr "c");
                 ("recipient", JStr "r"); ("amount", JNum 0); ("fee", JNum 1)];
           JUndefined] fresh_world)
       (Error "An amount must be specified").
Proof.
  split.
  - apply (proj1 (fee_zero_accepted_amount_zero_rejected
                    (node_answering ok_body) op_transferPolys
                    [("recipient", JStr "r"); ("amount", JNum 5); ("fee", JNum 0)]
                    JUndefined fresh_world (or_introl eq_refl))).
    + reflexivity.
    + intros f Hf Hfee. cbn in Hf.
      destruct Hf as [<- | [<- | [<- | []]]];
        [reflexivity | reflexivity | now contradiction Hfee].
  - apply (proj2 (fee_zero_accepted_amount_zero_rejected
                    (node_answering ok_body) op_createAssets
                    [("issuer", JStr "i"); ("assetCode", JStr "c");
                     ("recipient", JStr "r"); ("amount", JNum 0); ("fee", JNum 1)]
                    JUndefined fresh_world
                    (or_intror (or_intror (or_introl eq_refl))))).
    + reflexivity.
    + intros f Hf. cbn in Hf.
      destruct Hf as [<- | [<- | [<- | []]]]; reflexivity.
Defined.

(** ** The posted envelope *)

(** The envelope, the target and the payload of the one request a call
    makes when it passes its local validation with parameter object
    [params]. *)
Lemma invoke_posts node op args w params :
  Catalog.verdict (Catalog.descriptor op) args w = inr params ->
  let d := Catalog.descriptor op in
  let tgt := js_plus (url (this w)) (Catalog.route_of d) in
  fst (invoke node op args w)
  = posted w
      (mkFetchCall tgt
         (mkPayload tgt "POST" (headers (this w))
            (JSON_stringify
               (JObj [("jsonrpc", JStr "2.0");
                      ("id", js_or (Catalog.id_of d args) (JStr "1"));
                      ("method", JStr (Catalog.method_of d));
                      ("params", JArr [params])])))).
Proof.
  intros Hpass. cbn zeta. rewrite invoke_run, Hpass. cbn [fst].
  destruct (verdict_object op args w params Hpass) as [ps ->].
  reflexivity.
Qed.

(** C5: a call either is rejected locally and posts nothing, or posts
    exactly one request, to the client's [url] concatenated with the
    operation's route, whose body is the serialized envelope
    [{"jsonrpc":"2.0","id":<id>,"method":<method>,"params":[<params>]}]
    with the parameter object as the sole element of [params]: the caller's
    first argument, or the empty object for an operation that takes none.
    In particular [getMempool()] posts
    [{"jsonrpc":"2.0","id":"1","method":"mempool","params":[{}]}] to the
    [url] followed by "nodeView/". *)
Theorem envelope_posted node op args w :
  let d := Catalog.descriptor op in
  let tgt := js_plus (url (this w)) (Catalog.route_of d) in
  match Catalog.verdict d args w with
  | inl e => invoke node op args w = (w, inl e)
  | inr params =>
      fst (invoke node op args w)
      = posted w
          (mkFetchCall tgt
             (mkPayload tgt "POST" (headers (this w))
                (JSON_stringify
                   (JObj [("jsonrpc", JStr "2.0");
                          ("id", js_or (Catalog.id_of d args) (JStr "1"));
                          ("method", JStr (Catalog.method_of d));
                          ("params", JArr [params])]))))
      /\ params = match Catalog.params_from d with
                  | Catalog.FirstArgument => arg 0 args
                  | Catalog.EmptyObject => JObj []
                  | Catalog.FreeIdentifier => prop "params" (globals w)
                  end
  end
  /\ fst (invoke node op_getMempool [] w)
     = posted w
         (mkFetchCall (js_plus (url (this w)) "nodeView/")
            (mkPayload (js_plus (url (this w)) "nodeView/") "POST"
               (headers (this w))
               (json_text
                  "{'jsonrpc':'2.0','id':'1','method':'mempool','params':[{}]}"))).
Proof.
  cbn zeta. split.
  - destruct (Catalog.verdict (Catalog.descriptor op) args w)
      as [e | params] eqn:Hv.
    + now apply rejected_locally_iff.
    + split; [exact (invoke_posts node op args w params Hv) |].
      unfold Catalog.verdict, Catalog.params_of, prop in Hv.
      destruct (Catalog.params_from (Catalog.descriptor op)).
      * destruct (Catalog.complaint _ _); now inversion Hv.
      * now inversion Hv.
      * unfold prop. destruct (lookup "params" (globals w)); [| discriminate].
        destruct (Catalog.complaint _ _); now inversion Hv.
  - rewrite invoke_run. reflexivity.
Qed.

(** C9: in the envelope a call posts, [id] is "1" whenever the identifier
    the caller passed is falsy (omitted, [""], [0], ...), and is the
    caller's identifier itself when that is truthy. *)
Theorem envelope_id node op args w params :
  Catalog.verdict (Catalog.descriptor op) args w = inr params ->
  let caller_id := id_argument op args in
  exists call,
    fst (invoke node op args w) = posted w call
    /\ payload_body (payload call)
       = JSON_stringify
           (JObj [("jsonrpc", JStr "2.0");
                  ("id", if truthy caller_id then caller_id else JStr "1");
                  ("method", JStr (Catalog.method_of (Catalog.descriptor op)));
                  ("params", JArr [params])]).
Proof.
  intros Hpass. cbn zeta. eexists. split.
  - exact (invoke_posts node op args w params Hpass).
  - cbn [payload payload_body].
    replace (js_or (Catalog.id_of (Catalog.descriptor op) args) (JStr "1"))
      with (if truthy (id_argument op args) then id_argument op args else JStr "1");
      [reflexivity |].
    unfold Catalog.id_of, id_argument, js_or.
    destruct (Catalog.params_from (Catalog.descriptor op));
      match goal with
      | |- context [default_arg ?a _] => destruct a as [| | [] | | | | |]
      end; cbn; try reflexivity;
      match goal with
      | |- context [negb ?b] => destruct b
      end; reflexivity.
Qed.

Lemma envelope_id_witness :
  exists call,
    fst (invoke (node_answering ok_body) op_getBlockById
           [JObj [("blockId", JStr "b1")]; JNum 0] fresh_world)
    = posted fresh_world call
    /\ payload_body (payload call)
       = JSON_stringify
           (JObj [("jsonrpc", JStr "2.0");
                  ("id", JStr "1");
                  ("method", JStr "blockById");
                  ("params", JArr [JObj [("blockId", JStr "b1")]])]).
Proof.
  exact (envelope_id (node_answering ok_body) op_getBlockById
           [JObj [("blockId", JStr "b1")]; JNum 0] fresh_world
           (JObj [("blockId", JStr "b1")]) eq_refl).
Defined.

(** The identifier on the wire for an empty string, for a truthy string and
    for an omitted identifier. *)
Example getMempool_empty_id_posts_1 :
  map (fun call => payload_body (payload call))
      (network (fst (invoke (node_answering ok_body) op_getMempool
                       [JStr EmptyString] fresh_world)))
  = [json_text "{'jsonrpc':'2.0','id':'1','method':'mempool','params':[{}]}"].
Proof. reflexivity. Qed.

Example getMempool_truthy_id_forwarded :
  map (fun call => payload_body (payload call))
      (network (fst (invoke (node_answering ok_body) op_getMempool
                       [JStr "req-42"] fresh_world)))
  = [json_text "{'jsonrpc':'2.0','id':'req-42','method':'mempool','params':[{}]}"].
Proof. reflexivity. Qed.

Example getBlockById_numeric_id_forwarded :
  map (fun call => payload_body (payload call))
      (network (fst (invoke (node_answering ok_body) op_getBlockById
                       [JObj [("blockId", JStr "b1")]; JNum 7] fresh_world)))
  = [json_text "{'jsonrpc':'2.0','id':7,'method':'blockById','params':[{'blockId':'b1'}]}"].
Proof. reflexivity. Qed.

(** ** The client configuration *)

Lemma setUrl_run u w :
  setUrl u w
  = (mkWorld (mkRequests u (headers (this w))) (globals w) (network w), inr tt).
Proof. reflexivity. Qed.

Lemma setApiKey_run k w :
  setApiKey k w
  = (mkWorld (mkRequests (url (this w))
                (set_prop "x-api-key" k (headers (this w))))
       (globals w) (network w),
     inr tt).
Proof. reflexivity. Qed.

(** The verdict of a call does not look at the client object. *)
Lemma verdict_ignores_client d args w self :
  Catalog.verdict d args (mkWorld self (globals w) (network w))
  = Catalog.verdict d args w.
Proof. reflexivity. Qed.

(** C8: [setUrl] and [setApiKey] accept any value and assign it to the
    client object in place, resolving without a check; the request of an
    operation call that follows [setUrl(u)] targets [u + route], and the
    request of one that follows [setApiKey(k)] carries [k] as its
    [x-api-key] header; a client constructed without arguments has the url
    "http://localhost:9085/" and the api key "topl_the_world!". *)
Theorem setters_take_effect node op args w params u k :
  Catalog.verdict (Catalog.descriptor op) args w = inr params ->
  (url (this (fst (setUrl u w))) = u /\ snd (setUrl u w) = inr tt)
  /\ (prop "x-api-key" (headers (this (fst (setApiKey k w)))) = k
      /\ snd (setApiKey k w) = inr tt)
  /\ (exists call,
        fst ((setUrl u ;; invoke node op args) w)
        = posted (fst (setUrl u w)) call
        /\ target call = js_plus u (Catalog.route_of (Catalog.descriptor op))
        /\ payload_url (payload call)
           = js_plus u (Catalog.route_of (Catalog.descriptor op)))
  /\ (exists call,
        fst ((setApiKey k ;; invoke node op args) w)
        = posted (fst (setApiKey k w)) call
        /\ prop "x-api-key" (payload_headers (payload call)) = k)
  /\ new_Requests JUndefined JUndefined
     = mkRequests (JStr "http://localhost:9085/")
         [("Content-Type", JStr "application/json");
          ("x-api-key", JStr "topl_the_world!")].
Proof.
  intros Hpass. repeat split.
  - cbn. apply prop_set_prop_same.
  - unfold bind at 1. rewrite setUrl_run.
    eexists. split; [| split].
    + cbn [fst]. apply invoke_posts. rewrite verdict_ignores_client. exact Hpass.
    + reflexivity.
    + reflexivity.
  - unfold bind at 1. rewrite setApiKey_run.
    eexists. split.
    + cbn [fst]. apply invoke_posts. rewrite verdict_ignores_client. exact Hpass.
    + cbn. apply prop_set_prop_same.
Qed.

Lemma setters_take_effect_witness :
  (exists call,
     fst ((setUrl (JStr "http://example:1234/") ;;
           invoke (node_answering ok_body) op_getMempool []) fresh_world)
     = posted (fst (setUrl (JStr "http://example:1234/") fresh_world)) call
     /\ target call = "http://example:1234/nodeView/")
  /\ (exists call,
        fst ((setApiKey (JStr "k1") ;;
              invoke (node_answering ok_body) op_getMempool []) fresh_world)
        = posted (fst (setApiKey (JStr "k1") fresh_world)) call
        /\ prop "x-api-key" (payload_headers (payload call)) = JStr "k1").
Proof.
  destruct (setters_take_effect (node_answering ok_body) op_getMempool []
              fresh_world (JObj []) (JStr "http://example:1234/") (JStr "k1")
              eq_refl)
    as (_ & _ & (c1 & H1 & H2 & _) & (c2 & H3 & H4) & _).
  split.
  - exists c1. split; [exact H1 | exact H2].
  - exists c2. split; [exact H3 | exact H4].
Defined.

(** No format is demanded: a number is accepted as url and ends up in the
    target by string concatenation. *)
Example setUrl_accepts_a_number :
  map target
      (network (fst ((setUrl (JNum 5) ;;
                      invoke (node_answering ok_body) op_chainInfo [])
                       fresh_world)))
  = ["5debug/"].
Proof. reflexivity. Qed.

(** ** The array check of getBalancesByKey *)




(** ** Further properties of the dispatcher *)

Lemma transport_failure_propagates_witness :
  snd (LokiRequest (node_failing (TransportError "ECONNREFUSED"))
         (mkRouteInfo "debug/" "info" (JStr "1")) (JObj []) fresh_world)
  = inl (TransportError "ECONNREFUSED").
Proof.
  apply (transport_failure_propagates
           (node_failing (TransportError "ECONNREFUSED"))
           (mkRouteInfo "debug/" "info" (JStr "1")) (JObj []) fresh_world
           (TransportError "ECONNREFUSED")).
  reflexivity.
Defined.

Lemma null_body_rejected_witness :
  snd (LokiRequest (node_answering JNull)
         (mkRouteInfo "debug/" "info" (JStr "1")) (JObj []) fresh_world)
  = inl (TypeError_read JNull "error").
Proof.
  apply (null_body_rejected (node_answering JNull)
           (mkRouteInfo "debug/" "info" (JStr "1")) (JObj []) fresh_world).
  reflexivity.
Defined.

(** Whatever a call resolves with is the parsed body the node gave to the
    one request the call posted, and that body's [error] is falsy: the
    client neither alters nor invents a result. *)
Theorem resolved_value_is_node_answer node op args w v :
  snd (invoke node op args w) = inr v ->
  exists call error,
    fst (invoke node op args w) = posted w call
    /\ node call = inr v
    /\ js_get v "error" = inr error
    /\ truthy error = false.
Proof.
  rewrite invoke_run.
  destruct (Catalog.verdict _ _ _) as [e | params]; [discriminate |].
  cbn [fst snd]. unfold settle.
  match goal with |- context [node ?c] => set (call := c) end.
  destruct (node call) as [e | body] eqn:Hnode; [discriminate |].
  destruct (js_get body "error") as [e | error] eqn:Hget; [discriminate |].
  destruct (truthy error) eqn:Ht; [discriminate |].
  intros [= <-]. exists call, error. auto.
Qed.

Lemma resolved_value_is_node_answer_witness :
  exists call error,
    fst (invoke (node_answering ok_body) op_myBlocks [] fresh_world)
    = posted fresh_world call
    /\ node_answering ok_body call = inr ok_body
    /\ js_get ok_body "error" = inr error
    /\ truthy error = false.
Proof.
  exact (resolved_value_is_node_answer (node_answering ok_body) op_myBlocks []
           fresh_world ok_body eq_refl).
Defined.

(** No operation touches the client configuration or the global scope, and
    a call adds at most one request to the log, after those already
    there. *)
Theorem invoke_keeps_configuration node op args w :
  let w' := fst (invoke node op args w) in
  this w' = this w
  /\ globals w' = globals w
  /\ (network w' = network w
      \/ exists call, network w' = (network w ++ [call])%list).
Proof.
  cbn zeta. rewrite invoke_run.
  destruct (Catalog.verdict _ _ _); cbn; eauto.
Qed.

(** Validation is local: whether and with what a call is rejected before
    any request depends on the arguments and on the global scope only, not
    on the node, the client configuration or the requests made so far. *)
Theorem local_rejection_ignores_node_and_client
  node1 node2 op args w1 w2 e :
  globals w1 = globals w2 ->
  rejected_locally w1 (invoke node1 op args w1) e
  <-> rejected_locally w2 (invoke node2 op args w2) e.
Proof.
  intros Hg. rewrite !rejected_locally_iff.
  unfold Catalog.verdict, Catalog.params_of. rewrite Hg. reflexivity.
Qed.

Lemma local_rejection_ignores_node_and_client_witness :
  rejected_locally fresh_world
    (invoke (node_answering ok_body) op_broadcastTx [JObj []] fresh_world)
    (Error "A tx object must be specified")
  <-> rejected_locally
        (fst (setUrl (JStr "http://other/") fresh_world))
        (invoke (node_failing (TransportError "down")) op_broadcastTx [JObj []]
           (fst (setUrl (JStr "http://other/") fresh_world)))
        (Error "A tx object must be specified").
Proof.
  apply (local_rejection_ignores_node_and_client
           (node_answering ok_body) (node_failing (TransportError "down"))
           op_broadcastTx [JObj []] fresh_world
           (fst (setUrl (JStr "http://other/") fresh_world))).
  reflexivity.
Defined.

(** ** Further properties of the validation *)

Lemma first_violation_at ps pre r post :
  (forall r', In r' pre ->
     Catalog.violates (Catalog.demands r') (prop (Catalog.field r') ps) = false) ->
  Catalog.violates (Catalog.demands r) (prop (Catalog.field r) ps) = true ->
  Catalog.first_violation (JObj ps) (pre ++ r :: post)
  = Some (Error (Catalog.message r)).
Proof.
  intros Hpre Hr. induction pre as [| r0 pre' IH]; cbn.
  - rewrite Hr. reflexivity.
  - rewrite (Hpre r0) by (left; reflexivity).
    apply IH. intros r' Hin. apply Hpre. right; exact Hin.
Qed.

Lemma first_violation_none_inv ps rs :
  Catalog.first_violation (JObj ps) rs = None ->
  forall r, In r rs ->
    Catalog.violates (Catalog.demands r) (prop (Catalog.field r) ps) = false.
Proof.
  induction rs as [| r0 rest IH]; intros Hnone r Hin; [contradiction |].
  cbn in Hnone.
  destruct (Catalog.violates (Catalog.demands r0) (prop (Catalog.field r0) ps))
    eqn:Hv; [discriminate |].
  destruct Hin as [<- | Hin]; [exact Hv | exact (IH Hnone r Hin)].
Qed.

(** The verdict on a parameter object given as first argument. *)
Lemma verdict_on_object op ps i w :
  Catalog.params_from (Catalog.descriptor op) = Catalog.FirstArgument ->
  Catalog.verdict (Catalog.descriptor op) [JObj ps; i] w
  = match Catalog.first_violation (JObj ps)
            (Catalog.rules (Catalog.descriptor op)) with
    | Some e => inl e
    | None => inr (JObj ps)
    end.
Proof.
  intros Hsrc.
  unfold Catalog.verdict, Catalog.params_of, Catalog.complaint.
  rewrite Hsrc. cbn [arg nth truthy negb]. rewrite andb_false_r. reflexivity.
Qed.

(** The checks run in the order of the source and stop at the first one
    that fails: when the fields checked earlier are acceptable and a field
    is not, the call is rejected before any request with the message of
    that field, whatever the fields checked later hold. *)
Theorem first_failing_check_reported node op ps i w pre r post :
  Catalog.params_from (Catalog.descriptor op) = Catalog.FirstArgument ->
  Catalog.rules (Catalog.descriptor op) = (pre ++ r :: post)%list ->
  (forall r', In r' pre ->
     Catalog.violates (Catalog.demands r') (prop (Catalog.field r') ps) = false) ->
  Catalog.violates (Catalog.demands r) (prop (Catalog.field r) ps) = true ->
  rejected_locally w (invoke node op [JObj ps; i] w)
    (Error (Catalog.message r)).
Proof.
  intros Hsrc Hrules Hpre Hr. apply rejected_locally_iff.
  rewrite verdict_on_object by exact Hsrc.
  rewrite Hrules, (first_violation_at ps pre r post Hpre Hr). reflexivity.
Qed.

Lemma first_failing_check_reported_witness :
  rejected_locally fresh_world
    (invoke (node_answering ok_body) op_transferAssetsPrototype
       [JObj [("issuer", JStr "i"); ("assetCode", JStr "c");
              ("recipient", JStr "r"); ("fee", JNull)];
        JUndefined] fresh_world)
    (Error "A sender must be specified").
Proof.
  apply (first_failing_check_reported (node_answering ok_body)
           op_transferAssetsPrototype
           [("issuer", JStr "i"); ("assetCode", JStr "c");
            ("recipient", JStr "r"); ("fee", JNull)]
           JUndefined fresh_world
           [Catalog.need_issuer; Catalog.need_assetCode; Catalog.need_recipient]
           Catalog.need_sender
           [Catalog.need_amount; Catalog.need_fee]).
  - reflexivity.
  - reflexivity.
  - intros r' Hin. cbn in Hin.
    destruct Hin as [<- | [<- | [<- | []]]]; reflexivity.
  - reflexivity.
Defined.

(** A parameter object reaches the node exactly when every checked field
    is acceptable: truthy, or the number zero for [fee], or an array for
    [publicKeys]. *)
Theorem dispatched_iff_all_fields_acceptable node op ps i w :
  Catalog.params_from (Catalog.descriptor op) = Catalog.FirstArgument ->
  (exists call, fst (invoke node op [JObj ps; i] w) = posted w call)
  <-> (forall r, In r (Catalog.rules (Catalog.descriptor op)) ->
         Catalog.violates (Catalog.demands r) (prop (Catalog.field r) ps) = false).
Proof.
  intros Hsrc. rewrite invoke_run, verdict_on_object by exact Hsrc.
  destruct (Catalog.first_violation (JObj ps) _) as [e |] eqn:Hfv.
  - cbn [fst]. split.
    + intros [call Hcall]. symmetry in Hcall. now apply posted_neq in Hcall.
    + intros Hall. rewrite (first_violation_passes ps _ Hall) in Hfv.
      discriminate.
  - cbn [fst]. split.
    + intros _. exact (first_violation_none_inv ps _ Hfv).
    + intros _. eauto.
Qed.

Lemma dispatched_iff_all_fields_acceptable_witness :
  (exists call,
     fst (invoke (node_answering ok_body) op_signTransaction
            [JObj [("publicKey", JStr "pk"); ("tx", JObj [])]; JUndefined]
            fresh_world)
     = posted fresh_world call)
  <-> (forall r,
         In r (Catalog.rules (Catalog.descriptor op_signTransaction)) ->
         Catalog.violates (Catalog.demands r)
           (prop (Catalog.field r) [("publicKey", JStr "pk"); ("tx", JObj [])])
         = false).
Proof.
  exact (dispatched_iff_all_fields_acceptable (node_answering ok_body)
           op_signTransaction [("publicKey", JStr "pk"); ("tx", JObj [])]
           JUndefined fresh_world eq_refl).
Defined.

(** A parameter argument that is truthy but not an object (a string, a
    number, [true], an array) has none of the required fields: the call is
    rejected with the message of the first field checked. *)
Theorem non_object_params_rejected node op params i w r rest :
  Catalog.params_from (Catalog.descriptor op) = Catalog.FirstArgument ->
  Catalog.rules (Catalog.descriptor op) = r :: rest ->
  truthy params = true ->
  (forall ps, params <> JObj ps) ->
  rejected_locally w (invoke node op [params; i] w) (Error (Catalog.message r)).
Proof.
  intros Hsrc Hrules Htruthy Hnot. apply rejected_locally_iff.
  unfold Catalog.verdict, Catalog.params_of, Catalog.complaint.
  rewrite Hsrc, Hrules. cbn [arg nth]. rewrite Htruthy, andb_false_r.
  cbn [Catalog.first_violation].
  assert (Hplain : plain_name (Catalog.field r) = true).
  { destruct op; cbn in Hrules; try discriminate;
      injection Hrules as <- _; reflexivity. }
  destruct (js_get params (Catalog.field r)) as [e | v] eqn:Hget.
  - destruct params; cbn in Htruthy, Hget; discriminate.
  - assert (Hv : v = JUndefined).
    { destruct v; try reflexivity;
        destruct (js_get_plain _ _ _ Hplain Hget) as [ps Hps];
        try discriminate; now apply Hnot in Hps. }
    rewrite Hv, violates_undefined. reflexivity.
Qed.

Lemma non_object_params_rejected_witness :
  rejected_locally fresh_world
    (invoke (node_answering ok_body) op_getTransactionById
       [JStr "6XqWZ"; JUndefined] fresh_world)
    (Error "A transactionId must be specified").
Proof.
  apply (non_object_params_rejected (node_answering ok_body)
           op_getTransactionById (JStr "6XqWZ") JUndefined fresh_world
           Catalog.need_transactionId []).
  - reflexivity.
  - reflexivity.
  - reflexivity.
  - intros ps H. discriminate H.
Defined.

Lemma guarded_without_params_witness :
  rejected_locally fresh_world
    (invoke (node_answering ok_body) op_lockKeyfile [JNull; JStr "9"]
       fresh_world)
    (Error "A parameter object must be specified").
Proof.
  apply (guarded_without_params (node_answering ok_body) op_lockKeyfile
           [JNull; JStr "9"] fresh_world); reflexivity.
Defined.

(** [getBalancesByKey] sends a parameter object exactly when its
    [publicKeys] is an array; the empty array is accepted. *)
Theorem getBalancesByKey_dispatches_iff_array node ps i w :
  (exists call,
     fst (invoke node op_getBalancesByKey [JObj ps; i] w) = posted w call)
  <-> Array_isArray (prop "publicKeys" ps) = true.
Proof.
  rewrite invoke_run, verdict_on_object by reflexivity.
  cbn [Catalog.descriptor Catalog.rules Catalog.first_violation js_get
       Catalog.need_publicKeys Catalog.field Catalog.demands Catalog.violates].
  destruct (prop "publicKeys" ps); cbn [Array_isArray negb];
    rewrite ?orb_true_r; cbn [truthy negb orb fst];
    try (split; [ intros [call Hcall]; symmetry in Hcall;
                  now apply posted_neq in Hcall
                | discriminate ]).
  split; eauto.
Qed.

Example getBalancesByKey_empty_list_posted :
  map (fun call => payload_body (payload call))
      (network (fst (invoke (node_answering ok_body) op_getBalancesByKey
                       [JObj [("publicKeys", JArr [])]] fresh_world)))
  = [json_text
       "{'jsonrpc':'2.0','id':'1','method':'balances','params':[{'publicKeys':[]}]}"].
Proof. reflexivity. Qed.

(** The operations declared with the single parameter [id] never reject
    locally: whatever the arguments, they post one request whose [params]
    is [[{}]], and the first argument serves as the identifier. *)
Theorem parameterless_always_posts node op args w :
  Catalog.params_from (Catalog.descriptor op) = Catalog.EmptyObject ->
  let d := Catalog.descriptor op in
  let tgt := js_plus (url (this w)) (Catalog.route_of d) in
  invoke node op args w
  = LokiRequest node
      (mkRouteInfo (Catalog.route_of d) (Catalog.method_of d)
         (default_arg (arg 0 args) (JStr "1")))
      (JObj []) w
  /\ fst (invoke node op args w)
     = posted w
         (mkFetchCall tgt
            (mkPayload tgt "POST" (headers (this w))
               (JSON_stringify
                  (JObj [("jsonrpc", JStr "2.0");
                         ("id", js_or (arg 0 args) (JStr "1"));
                         ("method", JStr (Catalog.method_of d));
                         ("params", JArr [JObj []])])))).
Proof.
  intros Hsrc. cbn zeta.
  assert (Hv : Catalog.verdict (Catalog.descriptor op) args w = inr (JObj [])).
  { unfold Catalog.verdict, Catalog.params_of. rewrite Hsrc. reflexivity. }
  split.
  - rewrite invoke_model, model_run, Hv.
    unfold Catalog.id_of. rewrite Hsrc. reflexivity.
  - rewrite (invoke_posts node op args w (JObj []) Hv).
    unfold Catalog.id_of. rewrite Hsrc.
    replace (js_or (default_arg (arg 0 args) (JStr "1")) (JStr "1"))
      with (js_or (arg 0 args) (JStr "1")); [reflexivity |].
    destruct (arg 0 args); reflexivity.
Qed.

Lemma parameterless_always_posts_witness :
  fst (invoke (node_answering ok_body) op_printChain
         [JObj [("blockId", JStr "b")]; JStr "x"] fresh_world)
  = posted fresh_world
      (mkFetchCall "http://localhost:9085/debug/"
         (mkPayload "http://localhost:9085/debug/" "POST"
            (headers (this fresh_world))
            (json_text
               "{'jsonrpc':'2.0','id':{'blockId':'b'},'method':'chain','params':[{}]}"))).
Proof.
  exact (proj2 (parameterless_always_posts (node_answering ok_body)
                  op_printChain [JObj [("blockId", JStr "b")]; JStr "x"]
                  fresh_world eq_refl)).
Defined.

(** For the eight operations with a fee, when the other required fields
    are truthy the call is rejected with "A fee must be specified" exactly
    when [fee] is falsy and is not the number 0 (absent, [null], [NaN],
    [false] or the empty string); every other fee, a negative number or a
    string included, goes through to the node. *)
Theorem fee_rejected_iff_falsy_and_not_zero node op ps i w :
  In op fee_operations ->
  (forall f, In f (required_fields op) -> f <> "fee" ->
             truthy (prop f ps) = true) ->
  (rejected_locally w (invoke node op [JObj ps; i] w)
     (Error "A fee must be specified")
   <-> truthy (prop "fee" ps) = false /\ prop "fee" ps <> JNum 0)
  /\ ((exists call, fst (invoke node op [JObj ps; i] w) = posted w call)
      <-> truthy (prop "fee" ps) = true \/ prop "fee" ps = JNum 0).
Proof.
  intros Hop Hothers.
  assert (Hsrc : Catalog.params_from (Catalog.descriptor op)
                 = Catalog.FirstArgument).
  { each_listed Hop; reflexivity. }
  assert (Hfv : Catalog.first_violation (JObj ps)
                  (Catalog.rules (Catalog.descriptor op))
                = if negb (truthy (prop "fee" ps))
                     && not_strict_zero (prop "fee" ps)
                  then Some (Error "A fee must be specified") else None).
  { each_listed Hop;
      cbn -[prop truthy not_strict_zero] in *;
      repeat match goal with
        | |- context [negb (truthy (prop ?f ps))] =>
            rewrite (Hothers f) by (intuition discriminate);
            cbn -[prop truthy not_strict_zero]
        end;
      reflexivity. }
  split.
  - rewrite rejected_locally_iff, verdict_on_object, Hfv by exact Hsrc.
    destruct (truthy (prop "fee" ps)); cbn [negb andb].
    + split; [discriminate | intros [H _]; discriminate H].
    + destruct (not_strict_zero (prop "fee" ps)) eqn:Hz.
      * split; [| reflexivity]. intros _. split; [reflexivity |].
        intros H. apply not_strict_zero_false in H. congruence.
      * apply not_strict_zero_false in Hz.
        split; [discriminate | intros [_ H]; contradiction].
  - rewrite invoke_run, verdict_on_object, Hfv by exact Hsrc.
    destruct (truthy (prop "fee" ps)); cbn [negb andb fst].
    + split; eauto.
    + destruct (not_strict_zero (prop "fee" ps)) eqn:Hz; cbn [fst].
      * split.
        -- intros [call Hcall]. symmetry in Hcall.
           now apply posted_neq in Hcall.
        -- intros [H | H]; [discriminate |].
           apply not_strict_zero_false in H. congruence.
      * apply not_strict_zero_false in Hz. split; eauto.
Qed.

Lemma fee_rejected_iff_falsy_and_not_zero_witness :
  rejected_locally fresh_world
    (invoke (node_answering ok_body) op_transferArbits
       [JObj [("recipient", JStr "r"); ("amount", JNum 2);
              ("fee", JStr EmptyString)];
        JUndefined] fresh_world)
    (Error "A fee must be specified")
  /\ exists call,
       fst (invoke (node_answering ok_body) op_transferArbits
              [JObj [("recipient", JStr "r"); ("amount", JNum 2);
                     ("fee", JNum (-3))];
               JUndefined] fresh_world)
       = posted fresh_world call.
Proof.
  assert (Hothers : forall fee f,
             In f (required_fields op_transferArbits) -> f <> "fee" ->
             truthy (prop f [("recipient", JStr "r"); ("amount", JNum 2);
                             ("fee", fee)]) = true).
  { intros fee f Hf Hfee. cbn in Hf.
    destruct Hf as [<- | [<- | [<- | []]]];
      [reflexivity | reflexivity | now contradiction Hfee]. }
  split.
  - apply (proj1 (fee_rejected_iff_falsy_and_not_zero
                    (node_answering ok_body) op_transferArbits
                    [("recipient", JStr "r"); ("amount", JNum 2);
                     ("fee", JStr EmptyString)]
                    JUndefined fresh_world
                    (or_intror (or_introl eq_refl))
                    (Hothers (JStr EmptyString)))).
    split; [reflexivity | discriminate].
  - apply (proj2 (fee_rejected_iff_falsy_and_not_zero
                    (node_answering ok_body) op_transferArbits
                    [("recipient", JStr "r"); ("amount", JNum 2);
                     ("fee", JNum (-3))]
                    JUndefined fresh_world
                    (or_intror (or_introl eq_refl))
                    (Hothers (JNum (-3))))).
    left. reflexivity.
Defined.

Lemma calcDelay_uses_global_params_witness :
  invoke (node_answering ok_body) op_calcDelay
    [JObj [("blockId", JStr "mine"); ("numBlocks", JNum 1)]]
    (world_with_global_params (JObj [("blockId", JStr "other")]))
  = (world_with_global_params (JObj [("blockId", JStr "other")]),
     inl (Error "A number of blocks must be specified")).
Proof.
  exact (calcDelay_uses_global_params (node_answering ok_body)
           [JObj [("blockId", JStr "mine"); ("numBlocks", JNum 1)]]
           (world_with_global_params (JObj [("blockId", JStr "other")]))
           (JObj [("blockId", JStr "other")]) eq_refl).
Defined.

Lemma string_append_inv_head s a b : s ++ a = s ++ b -> a = b.
Proof.
  induction s as [| c s IH]; cbn; [auto |]. intros [= H]. auto.
Qed.

Lemma string_append_assoc (a b c : string) : (a ++ b) ++ c = a ++ (b ++ c).
Proof.
  induction a as [| x a IH]; cbn; [reflexivity | now rewrite IH].
Qed.

(** Strip the common beginning of the two sides of an equation between
    texts. *)
Ltac peel H :=
  repeat first
    [ progress (repeat match type of H with
                       | String _ _ = String _ _ => injection H as H
                       end)
    | progress (rewrite !string_append_assoc in H)
    | progress (cbn [append] in H)
    | apply string_append_inv_head in H ].

(** Two envelopes with the same identifier and the same text have method
    names with the same quoted text up to the closing quote. *)
Lemma envelope_text_method idv m1 m2 p1 p2 :
  JSON_stringify
    (JObj [("jsonrpc", JStr "2.0"); ("id", idv); ("method", JStr m1);
           ("params", JArr [p1])])
  = JSON_stringify
      (JObj [("jsonrpc", JStr "2.0"); ("id", idv); ("method", JStr m2);
             ("params", JArr [p2])]) ->
  exists t1 t2,
    quote_chars m1 ++ String "034"%char t1
    = quote_chars m2 ++ String "034"%char t2.
Proof.
  unfold JSON_stringify.
  destruct idv as [| | [] | | | | |]; cbn -[string_of_Z quote_chars];
    intros H; unfold dquote in H; peel H; do 2 eexists; exact H.
Qed.

Lemma methods_apart op1 op2 t1 t2 :
  quote_chars (Catalog.method_of (Catalog.descriptor op1))
    ++ String "034"%char t1
  = quote_chars (Catalog.method_of (Catalog.descriptor op2))
      ++ String "034"%char t2 ->
  op1 = op2.
Proof.
  destruct op1, op2; cbn; intros H; solve [reflexivity | discriminate H].
Qed.

(** The operation can be read off the wire: two calls made with the same
    identifier that post the same request are calls of the same operation
    (no two operations send the same method name); and the target of every
    request is the client's url followed by one of "wallet/", "asset/",
    "nodeView/" and "debug/". *)
Theorem posted_request_tells_operation
  node op1 op2 args1 args2 w params1 params2 :
  Catalog.verdict (Catalog.descriptor op1) args1 w = inr params1 ->
  Catalog.verdict (Catalog.descriptor op2) args2 w = inr params2 ->
  id_argument op1 args1 = id_argument op2 args2 ->
  (fst (invoke node op1 args1 w) = fst (invoke node op2 args2 w) -> op1 = op2)
  /\ exists call r,
       fst (invoke node op1 args1 w) = posted w call
       /\ target call = js_plus (url (this w)) r
       /\ In r ["wallet/"; "asset/"; "nodeView/"; "debug/"].
Proof.
  intros H1 H2 Hid.
  assert (Hid' : Catalog.id_of (Catalog.descriptor op1) args1
                 = Catalog.id_of (Catalog.descriptor op2) args2).
  { unfold id_argument in Hid. unfold Catalog.id_of.
    destruct (Catalog.params_from (Catalog.descriptor op1)),
             (Catalog.params_from (Catalog.descriptor op2));
      now rewrite Hid. }
  split.
  - rewrite (invoke_posts node op1 args1 w params1 H1),
            (invoke_posts node op2 args2 w params2 H2).
    intros Hsame.
    apply (f_equal network) in Hsame. unfold posted in Hsame.
    cbn [network] in Hsame. apply app_inv_head in Hsame.
    apply (f_equal (fun calls => match calls with
                                  | c :: _ => payload_body (payload c)
                                  | [] => EmptyString
                                  end)) in Hsame.
    cbn [payload payload_body] in Hsame.
    rewrite Hid' in Hsame.
    rename Hsame into Hbody.
    destruct (envelope_text_method _ _ _ _ _ Hbody) as (t1 & t2 & Ht).
    exact (methods_apart op1 op2 t1 t2 Ht).
  - eexists. exists (Catalog.route_of (Catalog.descriptor op1)).
    split; [exact (invoke_posts node op1 args1 w params1 H1) |].
    split; [reflexivity |].
    destruct op1; cbn; tauto.
Qed.

Lemma posted_request_tells_operation_witness :
  exists call r,
    fst (invoke (node_answering ok_body) op_getBlockById
           [JObj [("blockId", JStr "b1")]; JStr "7"] fresh_world)
    = posted fresh_world call
    /\ target call = js_plus (url (this fresh_world)) r
    /\ In r ["wallet/"; "asset/"; "nodeView/"; "debug/"].
Proof.
  exact (proj2 (posted_request_tells_operation (node_answering ok_body)
                  op_getBlockById op_blockGenerators
                  [JObj [("blockId", JStr "b1")]; JStr "7"] [JStr "7"]
                  fresh_world (JObj [("blockId", JStr "b1")]) (JObj [])
                  eq_refl eq_refl eq_refl)).
Defined.

(** Two different operations called with the same identifier never post
    the same request. *)
Example getBlockById_and_blockGenerators_differ_on_the_wire :
  fst (invoke (node_answering ok_body) op_getBlockById
         [JObj [("blockId", JStr "b1")]; JStr "7"] fresh_world)
  <> fst (invoke (node_answering ok_body) op_blockGenerators [JStr "7"]
            fresh_world).
Proof.
  intros H. discriminate H.
Qed.

(** ** Further properties of the configuration *)

Lemma prop_set_prop_other k k' v ps :
  k <> k' -> prop k' (set_prop k v ps) = prop k' ps.
Proof.
  intros Hk. unfold prop.
  induction ps as [| [k0 v0] rest IH]; cbn.
  - destruct (String.eqb_spec k k'); [contradiction | reflexivity].
  - destruct (String.eqb_spec k0 k) as [-> | Hk0]; cbn.
    + destruct (String.eqb_spec k k'); [contradiction | reflexivity].
    + destruct (k0 =? k'); [reflexivity | exact IH].
Qed.

(** Each setter changes its own setting and nothing else, on any client
    object: [setUrl] leaves the headers as they are, and [setApiKey]
    replaces the [x-api-key] header while the url and every other header
    keep their values. *)
Theorem setters_frame u k w h :
  h <> "x-api-key" ->
  headers (this (fst (setUrl u w))) = headers (this w)
  /\ url (this (fst (setApiKey k w))) = url (this w)
  /\ prop h (headers (this (fst (setApiKey k w)))) = prop h (headers (this w))
  /\ prop "x-api-key" (headers (this (fst (setApiKey k w)))) = k.
Proof.
  intros Hh. rewrite setUrl_run, setApiKey_run. cbn [fst this headers url].
  repeat split.
  - apply prop_set_prop_other. congruence.
  - apply prop_set_prop_same.
Qed.

Lemma setters_frame_witness :
  prop "Content-Type"
    (headers (this (fst (setApiKey (JNum 7) fresh_world))))
  = JStr "application/json"
  /\ prop "x-api-key" (headers (this (fst (setApiKey (JNum 7) fresh_world))))
     = JNum 7.
Proof.
  destruct (setters_frame JUndefined (JNum 7) fresh_world "Content-Type")
    as (_ & _ & Hother & Hkey).
  - discriminate.
  - split; [exact Hother | exact Hkey].
Defined.

(** The state after a sequence of setter calls on a client with the two
    headers of the constructor. *)
Lemma run_setters_state cs u k g net :
  let w := run_setters cs
             (mkWorld (mkRequests u [("Content-Type", JStr "application/json");
                                     ("x-api-key", k)]) g net) in
  this w
  = mkRequests (last_url cs u)
      [("Content-Type", JStr "application/json"); ("x-api-key", last_key cs k)]
  /\ globals w = g
  /\ network w = net.
Proof.
  cbn zeta. unfold last_url, last_key. revert u k.
  induction cs as [| c rest IH]; intros u k; cbn [run_setters fold_left].
  - repeat split.
  - destruct c as [u' | k']; cbn [run_setter];
      [rewrite setUrl_run | rewrite setApiKey_run];
      cbn [fst this url headers globals network]; apply IH.
Qed.

(** The shape of the configuration is an invariant of the setters: after
    any sequence of [setUrl] and [setApiKey] calls on a client built by the
    constructor, the headers are still exactly [Content-Type:
    application/json] followed by one [x-api-key], the url is the value of
    the last [setUrl] (else the constructor's) and the key that of the last
    [setApiKey] (else the constructor's); globals and the request log are
    untouched. *)
Theorem configuration_after_setters url_arg key_arg cs g net :
  let w := run_setters cs (mkWorld (new_Requests url_arg key_arg) g net) in
  this w
  = mkRequests
      (last_url cs (default_arg url_arg (JStr "http://localhost:9085/")))
      [("Content-Type", JStr "application/json");
       ("x-api-key",
        last_key cs (default_arg key_arg (JStr "topl_the_world!")))]
  /\ globals w = g
  /\ network w = net.
Proof.
  exact (run_setters_state cs _ _ g net).
Qed.

(** Hence every request of such a client is a POST that carries
    [Content-Type: application/json], the last api key set and the last
    url set in front of the route. *)
Theorem requests_after_setters node op args params url_arg key_arg cs g net :
  let w := run_setters cs (mkWorld (new_Requests url_arg key_arg) g net) in
  Catalog.verdict (Catalog.descriptor op) args w = inr params ->
  exists call,
    fst (invoke node op args w) = posted w call
    /\ payload_method (payload call) = "POST"
    /\ payload_headers (payload call)
       = [("Content-Type", JStr "application/json");
          ("x-api-key",
           last_key cs (default_arg key_arg (JStr "topl_the_world!")))]
    /\ target call
       = js_plus
           (last_url cs (default_arg url_arg (JStr "http://localhost:9085/")))
           (Catalog.route_of (Catalog.descriptor op)).
Proof.
  cbn zeta. intros Hpass.
  destruct (run_setters_state cs
              (default_arg url_arg (JStr "http://localhost:9085/"))
              (default_arg key_arg (JStr "topl_the_world!")) g net)
    as (Hthis & _ & _).
  cbn zeta in Hthis. fold (new_Requests url_arg key_arg) in Hthis.
  eexists. split; [exact (invoke_posts node op args _ params Hpass) |].
  cbn [payload payload_method payload_headers target].
  rewrite Hthis. repeat split.
Qed.

Lemma requests_after_setters_witness :
  exists call,
    fst (invoke (node_answering ok_body) op_chainInfo []
           (run_setters [SetApiKey (JStr "k1"); SetUrl (JStr "http://a/");
                         SetApiKey (JStr "k2")]
              (mkWorld (new_Requests JUndefined (JStr "k0")) [] [])))
    = posted
        (run_setters [SetApiKey (JStr "k1"); SetUrl (JStr "http://a/");
                      SetApiKey (JStr "k2")]
           (mkWorld (new_Requests JUndefined (JStr "k0")) [] []))
        call
    /\ payload_method (payload call) = "POST"
    /\ payload_headers (payload call)
       = [("Content-Type", JStr "application/json"); ("x-api-key", JStr "k2")]
    /\ target call = "http://a/debug/".
Proof.
  exact (requests_after_setters (node_answering ok_body) op_chainInfo []
           (JObj []) JUndefined (JStr "k0")
           [SetApiKey (JStr "k1"); SetUrl (JStr "http://a/");
            SetApiKey (JStr "k2")] [] [] eq_refl).
Defined.

(** Requests are logged in call order, each with the configuration of its
    own moment: a call, then [setUrl(u)], then a second call leave the log
    extended by the first request to the old url and the second to [u],
    whatever the node answered to the first. *)
Theorem setUrl_between_calls node op1 args1 op2 args2 u w params1 params2 :
  Catalog.verdict (Catalog.descriptor op1) args1 w = inr params1 ->
  Catalog.verdict (Catalog.descriptor op2) args2 w = inr params2 ->
  let w1 := fst (invoke node op1 args1 w) in
  let w2 := fst (setUrl u w1) in
  let w3 := fst (invoke node op2 args2 w2) in
  exists call1 call2,
    network w3 = (network w ++ [call1; call2])%list
    /\ target call1
       = js_plus (url (this w)) (Catalog.route_of (Catalog.descriptor op1))
    /\ target call2 = js_plus u (Catalog.route_of (Catalog.descriptor op2))
    /\ payload_headers (payload call2) = headers (this w).
Proof.
  intros H1 H2. cbn zeta.
  rewrite (invoke_posts node op1 args1 w params1 H1).
  rewrite setUrl_run.
  erewrite (invoke_posts node op2 args2 _ params2).
  - do 2 eexists. split; [| split; [| split]].
    + unfold posted. cbn [fst network this globals]. rewrite <- app_assoc.
      reflexivity.
    + reflexivity.
    + reflexivity.
    + reflexivity.
  - unfold Catalog.verdict, Catalog.params_of in *. exact H2.
Qed.

Lemma setUrl_between_calls_witness :
  exists call1 call2,
    network
      (fst (invoke (node_failing (TransportError "down")) op_myBlocks []
              (fst (setUrl (JStr "http://b/")
                      (fst (invoke (node_failing (TransportError "down"))
                              op_getMempool [] fresh_world))))))
    = (network fresh_world ++ [call1; call2])%list
    /\ target call1 = "http://localhost:9085/nodeView/"
    /\ target call2 = "http://b/debug/"
    /\ payload_headers (payload call2) = headers (this fresh_world).
Proof.
  exact (setUrl_between_calls (node_failing (TransportError "down"))
           op_getMempool [] op_myBlocks [] (JStr "http://b/") fresh_world
           (JObj []) (JObj []) eq_refl eq_refl).
Defined.
